(** * MetamaskService: a shallow embedding of the wallet session service

    The service under study is the last revision of [MetamaskService]
    (a TypeScript class over an injected wallet, web3 and bignumber.js).
    The development has these parts:

    - [Num]: the numbers: IEEE binary64 values as exact rationals,
      [BigNumber] values with the operations the service calls
      (bignumber.js in its default configuration);
    - [Js]: the handful of JavaScript values the service handles, with
      truthiness, [String(v)], [===] and [||];
    - [Service]: the methods of the class, written in a state-and-exception
      monad over a world that records every request made to the wallet,
      every contract read, every write to [localStorage] and every reload;
    - [Props] and [Scenario]: the vocabulary of the statements and the
      concrete wallets, tokens and pages they are tried on;
    - the properties themselves. *)

From Stdlib Require Import ZArith QArith Qabs Qround Qreduction Qcanon Qpower.
From Stdlib Require Import Lia List Bool.
From Stdlib Require Import Ascii String DecimalString DecimalPos DecimalN.
From stdpp Require Import base strings gmap.

Set Default Proof Using "Type".

Local Open Scope Z_scope.

(* ===================================================================== *)
(** ** Numbers *)
(* ===================================================================== *)

Module Num.

(** A JavaScript number: a finite binary64 value, carried as the exact
    rational it denotes, an infinity or NaN.  The sign of zero is not
    tracked: no operation of the service tells [+0] from [-0] on the
    unsigned amounts it reads.  Reading a numeral and [Math.pow] are taken
    to round correctly (to nearest, ties to even), as the engines do. *)
Inductive jsnum : Type :=
| Num (q : Q)
| Inf (negative : bool)
| NaN.

(** A bignumber.js value: an exact decimal (kept as a reduced fraction),
    an infinity or NaN. *)
Inductive BigNumber : Type :=
| BNfin (q : Q)
| BNinf (negative : bool)
| BNnan.

(** *** Rounding a positive fraction to binary64 *)

(** Nearest integer to [num / den] for [den > 0], ties to the even one. *)
Definition round_half_even (num den : Z) : Z :=
  let m := num / den in
  match 2 * (num mod den) ?= den with
  | Lt => m
  | Gt => m + 1
  | Eq => if Z.even m then m else m + 1
  end.

(** [floor (log2 (p / r))] for positive [p] and [r]. *)
Definition binade (p r : Z) : Z :=
  let e0 := Z.log2 p - Z.log2 r in
  let above := if 0 <=? e0 then r * 2 ^ e0 <=? p else r <=? p * 2 ^ (- e0) in
  if above then e0 else e0 - 1.

(** The binary64 value nearest to [p / r] (round to nearest, ties to even):
    53 significant bits, exponent of the last place at least -1074,
    overflow to infinity from 2^1024 on. *)
Definition ToNumber_pos (p r : Z) : jsnum :=
  let e := Z.max (binade p r - 52) (-1074) in
  if 0 <=? e then
    let m := round_half_even p (r * 2 ^ e) in
    if 2 ^ 1024 <=? m * 2 ^ e then Inf false else Num (inject_Z (m * 2 ^ e))
  else
    let m := round_half_even (p * 2 ^ (- e)) r in
    Num (Qred (Qmake m (Z.to_pos (2 ^ (- e))))).

Definition jsnum_opp (x : jsnum) : jsnum :=
  match x with
  | Num q => Num (Qred (- q))
  | Inf s => Inf (negb s)
  | NaN => NaN
  end.

(** [ToNumber q]: the number a decimal numeral denoting [q] reads as
    (unary [+] on a numeric string, or a numeric literal). *)
Definition ToNumber (q : Q) : jsnum :=
  match Qnum q with
  | Z0 => Num 0
  | Zpos p => ToNumber_pos (Zpos p) (Zpos (Qden q))
  | Zneg p => jsnum_opp (ToNumber_pos (Zpos p) (Zpos (Qden q)))
  end.

(** *** The shortest decimal that reads back as a given number

    [String(x)] for a finite number prints the decimal with the fewest
    significant digits [k] among those that read back as [x], and the one
    closest to [x] among these.  bignumber.js builds a [BigNumber] from a
    number through this string. *)

Fixpoint ilog10_aux (fuel : nat) (z : Z) : Z :=
  match fuel with
  | O => 0
  | S f => if z <? 10 then 0 else 1 + ilog10_aux f (z / 10)
  end.

(** [floor (log10 z)] for [z >= 1]. *)
Definition ilog10 (z : Z) : Z := ilog10_aux (S (Z.to_nat (Z.log2 z))) z.

(** The decimal exponent [n] with [10^(n-1) <= p/r < 10^n], [p, r > 0]. *)
Definition decimal_magnitude (p r : Z) : Z :=
  if r <=? p then ilog10 (p / r) + 1
  else
    let t := (r + p - 1) / p in      (* ceil (r / p), at least 2 *)
    - ilog10 (t - 1).

(** [10^e] as a fraction, for any integer [e]. *)
Definition pow10 (e : Z) : Q :=
  if 0 <=? e then inject_Z (10 ^ e) else Qmake 1 (Z.to_pos (10 ^ (- e))).

Definition Qeqb (a b : Q) : bool := Qeq_bool a b.

Definition reads_as (d x : Q) : bool :=
  match ToNumber d with
  | Num y => Qeqb y x
  | _ => false
  end.

(** Try [k], [k+1], ... significant digits. *)
Fixpoint shortest_from (fuel : nat) (x : Q) (n k : Z) : Q :=
  match fuel with
  | O => Qred x
  | S f =>
      let step := pow10 (n - k) in
      let lo := Qfloor (x / step) in
      let dlo := Qred (inject_Z lo * step) in
      let dhi := Qred (inject_Z (lo + 1) * step) in
      match reads_as dlo x, reads_as dhi x with
      | true, false => dlo
      | false, true => dhi
      | true, true =>
          match Qcompare (x - dlo) (dhi - x) with
          | Lt => dlo
          | Gt => dhi
          | Eq => if Z.even lo then dlo else dhi
          end
      | false, false => shortest_from f x n (k + 1)
      end
  end.

Definition shortest_decimal (x : Q) : Q :=
  match Qnum x with
  | Z0 => 0
  | Zpos p =>
      shortest_from 21 x (decimal_magnitude (Zpos p) (Zpos (Qden x))) 1
  | Zneg p =>
      Qred (- shortest_from 21 (- x)
                (decimal_magnitude (Zpos p) (Zpos (Qden x))) 1)
  end.

(** *** bignumber.js, default configuration

    [DECIMAL_PLACES = 20] and [ROUNDING_MODE = ROUND_HALF_UP] (to nearest,
    ties away from zero); the service never calls [BigNumber.config]. *)

Definition DECIMAL_PLACES : nat := 20.

(** Nearest integer, ties away from zero. *)
Definition round_half_up (q : Q) : Z :=
  if Qle_bool 0 q then Qfloor (q + (1 # 2)) else - Qfloor (- q + (1 # 2)).

(** Round to [dp] decimal places. *)
Definition round_dp (dp : nat) (q : Q) : Q :=
  let scale := 10 ^ Z.of_nat dp in
  Qred (Qmake (round_half_up (q * inject_Z scale)) (Z.to_pos scale)).

Definition Qis_zero (q : Q) : bool := Qnum q =? 0.
Definition Qis_neg (q : Q) : bool := Qnum q <? 0.

(** [new BigNumber(n)] for a number [n]. *)
Definition BN_of_number (x : jsnum) : BigNumber :=
  match x with
  | Num q => BNfin (shortest_decimal q)
  | Inf s => BNinf s
  | NaN => BNnan
  end.

(** [new BigNumber(z)] for an integer literal. *)
Definition BN_of_Z (z : Z) : BigNumber := BNfin (inject_Z z).

(** [x.pow(n)] for a natural exponent: exact ([POW_PRECISION = 0]);
    infinities and NaN follow [Math.pow]. *)
Definition BN_pow (x : BigNumber) (n : nat) : BigNumber :=
  match x, n with
  | BNfin q, _ => BNfin (Qred (q ^ Z.of_nat n))
  | _, O => BNfin 1
  | BNinf s, _ => BNinf (s && Nat.odd n)
  | BNnan, _ => BNnan
  end.

(** [x.dividedBy(y)]: the quotient rounded to [DECIMAL_PLACES]. *)
Definition BN_dividedBy (x y : BigNumber) : BigNumber :=
  match x, y with
  | BNnan, _ | _, BNnan => BNnan
  | BNinf _, BNinf _ => BNnan
  | BNinf s, BNfin b => BNinf (xorb s (Qis_neg b))
  | BNfin a, BNinf _ => BNfin 0
  | BNfin a, BNfin b =>
      if Qis_zero b then
        if Qis_zero a then BNnan else BNinf (Qis_neg a)
      else BNfin (round_dp DECIMAL_PLACES (a / b))
  end.

(** [x.times(y)]: exact. *)
Definition BN_times (x y : BigNumber) : BigNumber :=
  match x, y with
  | BNnan, _ | _, BNnan => BNnan
  | BNinf s, BNinf t => BNinf (xorb s t)
  | BNinf s, BNfin b => if Qis_zero b then BNnan else BNinf (xorb s (Qis_neg b))
  | BNfin a, BNinf t => if Qis_zero a then BNnan else BNinf (xorb (Qis_neg a) t)
  | BNfin a, BNfin b => BNfin (Qred (a * b))
  end.

(** [x.minus(y)]: exact. *)
Definition BN_minus (x y : BigNumber) : BigNumber :=
  match x, y with
  | BNnan, _ | _, BNnan => BNnan
  | BNinf s, BNinf t => if Bool.eqb s t then BNnan else BNinf s
  | BNinf s, BNfin _ => BNinf s
  | BNfin _, BNinf t => BNinf (negb t)
  | BNfin a, BNfin b => BNfin (Qred (a - b))
  end.

(** [x.isPositive()]: the sign field is positive.  Zero counts: the
    difference of two equal values is [+0]. *)
Definition BN_isPositive (x : BigNumber) : bool :=
  match x with
  | BNfin q => Qle_bool 0 q
  | BNinf s => negb s
  | BNnan => false
  end.

(** *** Printing: [x.toString(10)] *)

Definition Z_to_string (z : Z) : string := NilZero.string_of_int (Z.to_int z).

Definition digit_char (d : Z) : ascii := ascii_of_nat (48 + Z.to_nat d).

(** The [width] decimal digits of [0 <= f < 10^width], most significant
    first. *)
Fixpoint frac_digits (width : nat) (f : Z) : list ascii :=
  match width with
  | O => []
  | S w => digit_char (f / 10 ^ Z.of_nat w) :: frac_digits w (f mod 10 ^ Z.of_nat w)
  end.

Fixpoint drop_zeros (l : list ascii) : list ascii :=
  match l with
  | c :: l' => if Ascii.eqb c "0" then drop_zeros l' else l
  | [] => []
  end.

Definition strip_trailing_zeros (l : list ascii) : list ascii :=
  rev (drop_zeros (rev l)).

(** Fixed-point notation of a fraction with at most [dp] decimal places. *)
Definition toFixedPoint (dp : nat) (q : Q) : string :=
  let scale := 10 ^ Z.of_nat dp in
  let a := Qabs q in
  let ip := Qfloor a in
  let fp := Qfloor ((a - inject_Z ip) * inject_Z scale) in
  let digits := strip_trailing_zeros (frac_digits dp fp) in
  let body :=
    match digits with
    | [] => Z_to_string ip
    | _ => Z_to_string ip ++ "." ++ string_of_list_ascii digits
    end%string in
  if Qis_neg q then ("-" ++ body)%string else body.

(** With the base given as 10, [toString] first rounds to
    [DECIMAL_PLACES] and never switches to exponential notation. *)
Definition BN_toString10 (x : BigNumber) : string :=
  match x with
  | BNfin q => toFixedPoint DECIMAL_PLACES (round_dp DECIMAL_PLACES q)
  | BNinf false => "Infinity"
  | BNinf true => "-Infinity"
  | BNnan => "NaN"
  end.

(** [+x.toString(10)]: the number the printed numeral reads as. *)
Definition BN_toNumber10 (x : BigNumber) : jsnum :=
  match x with
  | BNfin q => ToNumber (round_dp DECIMAL_PLACES q)
  | BNinf s => Inf s
  | BNnan => NaN
  end.

(** [Math.pow(10, d)] for a natural [d]: the binary64 value of [10^d],
    which is [10^d] itself up to [d = 22]; for a larger [d] an engine may
    return the neighbouring binary64 value instead. *)
Definition Math_pow10 (d : nat) : jsnum := ToNumber (inject_Z (10 ^ Z.of_nat d)).

(** The decimal numeral web3 returns for a [uint256] output. *)
Definition uint_string (n : N) : string := NilZero.string_of_uint (N.to_uint n).

End Num.

(* ===================================================================== *)
(** ** JavaScript values *)
(* ===================================================================== *)

Module Js.

Local Open Scope string_scope.

(** The values the service exchanges with the wallet and its callers.
    Chain ids, addresses, payloads and hashes are strings; numbers live in
    [Num] and never travel through these channels. *)
#[warnings="-register-all"]
Inductive jsval : Type :=
| JUndefined
| JNull
| JBool (b : bool)
| JString (s : string)
| JArray (items : list jsval)
| JErrorMsg (errorMsg : string)          (* the object literal { errorMsg } *)
| JError (name message : string).        (* an Error instance *)

Definition truthy (v : jsval) : bool :=
  match v with
  | JUndefined | JNull => false
  | JBool b => b
  | JString s => negb (String.eqb s "")
  | JArray _ | JErrorMsg _ | JError _ _ => true
  end.

(** [a || b] *)
Definition js_or (a b : jsval) : jsval := if truthy a then a else b.

(** [a === b] with a primitive on at least one side; an array or an
    object is never identical to the other operand. *)
Definition strict_eq (a b : jsval) : bool :=
  match a, b with
  | JUndefined, JUndefined => true
  | JNull, JNull => true
  | JBool x, JBool y => Bool.eqb x y
  | JString x, JString y => String.eqb x y
  | _, _ => false
  end.

Definition join_comma (parts : list string) : string :=
  match parts with
  | [] => ""
  | p :: ps => fold_left (fun acc q => acc ++ "," ++ q) ps p
  end.

(** [String(v)] *)
Fixpoint js_String (v : jsval) : string :=
  match v with
  | JUndefined => "undefined"
  | JNull => "null"
  | JBool true => "true"
  | JBool false => "false"
  | JString s => s
  | JArray items =>
      join_comma
        (List.map (fun x => match x with
                            | JUndefined | JNull => ""
                            | _ => js_String x
                            end) items)
  | JErrorMsg _ => "[object Object]"
  | JError name message =>
      if String.eqb name "" then message
      else if String.eqb message "" then name
      else name ++ ": " ++ message
  end.

(** [v[0]]: [None] stands for the TypeError raised on [undefined] and
    [null]. *)
Definition index0 (v : jsval) : option jsval :=
  match v with
  | JUndefined | JNull => None
  | JArray items => Some (List.hd JUndefined items)
  | JString (String c _) => Some (JString (String c EmptyString))
  | _ => Some JUndefined
  end.

Definition TypeError (message : string) : jsval := JError "TypeError" message.

End Js.

(* ===================================================================== *)
(** ** The service *)
(* ===================================================================== *)

Module Service.

Import Num Js.
Local Open Scope string_scope.

(** *** Data *)

Inductive Testnet : Type := ropsten | kovan | rinkeby.

Inductive Network : Type := mainnet | test (t : Testnet).

(** The [networks] table. *)
Definition networks (n : Network) : string :=
  match n with
  | mainnet => "0x1"
  | test ropsten => "0x3"
  | test kovan => "0x2a"
  | test rinkeby => "0x4"
  end.

Definition network_name (n : Network) : string :=
  match n with
  | mainnet => "mainnet"
  | test ropsten => "ropsten"
  | test kovan => "kovan"
  | test rinkeby => "rinkeby"
  end.

(** The injected wallet object, as far as the service reads it: the chain
    id it caches ([wallet.chainId], possibly absent). *)
Record Wallet : Type := { chainId : jsval }.

(** The fields the constructor sets and nothing changes afterwards.
    [wallet] is [None] when [window.ethereum] is undefined; [testnet] is
    [None] when the option was left out. *)
Record MetamaskService : Type := {
  wallet : option Wallet;
  testnet : option Testnet;
  isProduction : bool
}.

(** An entry of a contract ABI; constructors and fallbacks carry no name. *)
Record MethodDescriptor : Type := {
  name : option string;
  type : string;
  inputs : list string
}.

(** The argument of [eth_sendTransaction]; [approveToken] sets no
    [value] field. *)
Record TransactionConfig : Type := {
  from : jsval;
  to : string;
  data : string;
  value : option jsval
}.

(** What [getAccount] resolves with. *)
Record AccountInfo : Type := { address : jsval; network : jsval }.

(** What a read of a [uint256] output returns: its decimal numeral, or one
    of the falsy values the service guards against. *)
Inductive readval : Type :=
| RUint (n : N)
| RUndefined
| RNull
| RFalse
| REmpty.                                   (* the empty string *)

Inductive rpc : Type :=
| eth_chainId
| eth_requestAccounts
| eth_sendTransaction (tx : TransactionConfig).

(** A contract binding, as [getContract] builds it from an address and
    an ABI. *)
Record Contract : Type := {
  contractAddress : string;
  contractAbi : list MethodDescriptor
}.

(** Contract reads ([contract.methods.m(..).call()]): the binding, then
    the arguments. *)
Inductive read : Type :=
| totalSupply_call (contract : Contract)
| allowance_call (contract : Contract) (owner : jsval) (spender : string).

(** Everything the service does to the outside. *)
Inductive event : Type :=
| Request (r : rpc)                         (* wallet.request *)
| Call (c : read)                           (* a contract read *)
| SetItem (key val : string)                (* localStorage.setItem *)
| Reload.                                   (* window.location.reload *)

(** A promise, once settled. *)
Inductive settled (A : Type) : Type :=
| Fulfilled (v : A)
| Rejected (reason : jsval).
Arguments Fulfilled {A} v.
Arguments Rejected {A} reason.

(** The outside world's answers: every request and read settles, as a
    function of what happened before (a read of a method the binding's
    ABI does not declare is one that fails); the ABI codec either returns
    the encoded call or throws; handed [undefined] for a descriptor it
    throws, and what it throws is the installed web3's choice. *)
Record Env : Type := {
  wallet_request : list event -> rpc -> settled jsval;
  contract_call : list event -> read -> settled readval;
  codec : MethodDescriptor -> list jsval -> jsval + string;
  codec_undefined : jsval
}.

(** What changes while the service runs. *)
Record World : Type := {
  walletAddress : jsval;
  localStorage : gmap string string;
  trace : list event
}.

Definition log (e : event) (w : World) : World :=
  {| walletAddress := walletAddress w;
     localStorage := localStorage w;
     trace := trace w ++ [e] |}.

(** *** The monad: state, and an exception or a value *)

Inductive completion (A : Type) : Type :=
| Normal (a : A)
| Throw (e : jsval).
Arguments Normal {A} a.
Arguments Throw {A} e.

Definition M (A : Type) : Type := World -> completion A * World.

Definition ret {A} (a : A) : M A := fun w => (Normal a, w).

Definition throw {A} (e : jsval) : M A := fun w => (Throw e, w).

Definition bind {A B} (m : M A) (k : A -> M B) : M B :=
  fun w =>
    match m w with
    | (Normal a, w') => k a w'
    | (Throw e, w') => (Throw e, w')
    end.

Declare Scope js_scope.
Delimit Scope js_scope with js.
Notation "x <- m ;; k" := (bind m (fun x => k))
  (at level 100, m at next level, right associativity) : js_scope.
Notation "m ;;; k" := (bind m (fun _ => k))
  (at level 100, right associativity) : js_scope.
Local Open Scope js_scope.

(** [try { m } catch (e) { h e }] *)
Definition try_catch {A} (m : M A) (h : jsval -> M A) : M A :=
  fun w =>
    match m w with
    | (Normal a, w') => (Normal a, w')
    | (Throw e, w') => h e w'
    end.

(** [await p] *)
Definition await {A} (p : settled A) : M A :=
  match p with
  | Fulfilled v => ret v
  | Rejected e => throw e
  end.

(** The body of an [async] function: a returned promise is adopted, an
    exception becomes a rejection. *)
Definition async {A} (body : M (settled A)) : M (settled A) :=
  fun w =>
    match body w with
    | (Normal p, w') => (Normal p, w')
    | (Throw e, w') => (Normal (Rejected e), w')
    end.

(** [new Promise(executor)]: the executor runs at once; the first call of
    [resolve] or [reject] settles the promise ([early] is a settlement
    made before the part of the executor given as [rest]), and an
    exception escaping the executor rejects it unless it is settled. *)
Definition settle_once {A} (early : option (settled A)) (s : settled A) : settled A :=
  match early with
  | Some s0 => s0
  | None => s
  end.

Definition new_Promise {A} (early : option (settled A)) (rest : M (settled A))
  : M (settled A) :=
  fun w =>
    match rest w with
    | (Normal s, w') => (Normal (settle_once early s), w')
    | (Throw e, w') => (Normal (settle_once early (Rejected e)), w')
    end.

Definition get_walletAddress : M jsval := fun w => (Normal (walletAddress w), w).

Definition set_walletAddress (a : jsval) : M unit :=
  fun w => (Normal tt, {| walletAddress := a;
                          localStorage := localStorage w;
                          trace := trace w |}).

Definition localStorage_getItem (key : string) : M jsval :=
  fun w => (Normal (match localStorage w !! key with
                    | Some s => JString s
                    | None => JNull
                    end), w).

Definition localStorage_setItem (key : string) (v : jsval) : M unit :=
  fun w => (Normal tt,
            log (SetItem key (js_String v))
              {| walletAddress := walletAddress w;
                 localStorage := <[key := js_String v]> (localStorage w);
                 trace := trace w |}).

Definition location_reload : M unit := fun w => (Normal tt, log Reload w).

(** *** The methods of [MetamaskService] *)

(** Amount conversion and method resolution need neither the wallet nor
    the world. *)

(** [new this.web3Provider.eth.Contract(abi, tokenAddress)] *)
Definition getContract (tokenAddress : string) (abi : list MethodDescriptor)
  : Contract :=
  {| contractAddress := tokenAddress; contractAbi := abi |}.

(** The TypeError of reading property [p] of [undefined]; the wording is
    the engine's and nothing depends on it. *)
Definition undefined_property (p : string) : jsval :=
  TypeError ("Cannot read properties of undefined (reading '" ++ p ++ "')").

(** [new BigNumber(v)] for a value read from a contract. *)
Definition BN_of_readval (v : readval) : BigNumber :=
  match v with
  | RUint n => BNfin (inject_Z (Z.of_N n))
  | RUndefined | RNull | RFalse | REmpty => BNnan
  end.

(** The conversion at the end of [totalSupply]:
    [+new BigNumber(totalSupply).dividedBy(new BigNumber(10).pow(tokenDecimals)).toString(10)] *)
Definition unscale (totalSupply : readval) (tokenDecimals : nat) : jsnum :=
  BN_toNumber10
    (BN_dividedBy (BN_of_readval totalSupply) (BN_pow (BN_of_Z 10) tokenDecimals)).

(** [new BigNumber(amount).times(Math.pow(10, tokenDecimal)).toString(10)] *)
Definition calcTransactionAmount (amount : jsnum) (tokenDecimal : nat) : string :=
  BN_toString10 (BN_times (BN_of_number amount) (BN_of_number (Math_pow10 tokenDecimal))).

(** [abi.filter((m) => m.name === methodName)[0]]; [None] is [undefined]. *)
Definition getMethodInterface (abi : list MethodDescriptor) (methodName : string)
  : option MethodDescriptor :=
  List.hd_error
    (List.filter (fun m => match name m with
                           | Some s => String.eqb s methodName
                           | None => false
                           end) abi).

Definition readval_truthy (v : readval) : bool :=
  match v with
  | RUint _ => true                         (* a numeral is never empty *)
  | RUndefined | RNull | RFalse | REmpty => false
  end.

(** [v === s] for a string literal [s]. *)
Definition readval_is (v : readval) (s : string) : bool :=
  match v with
  | RUint n => String.eqb (uint_string n) s
  | REmpty => String.eqb "" s
  | RUndefined | RNull | RFalse => false
  end.

(** The decision of [checkTokenAllowance] once both reads are in:
[[
      result = result ? result.toString(10) : result;
      result = result === '0' ? null : result;
      if (result && new BigNumber(result).minus(totalSupply).isPositive())
]]
    ([toString] of a string is the string). *)
Definition allowance_covers (result : readval) (totalSupply : jsnum) : bool :=
  let result := if readval_is result "0" then RNull else result in
  readval_truthy result
  && BN_isPositive (BN_minus (BN_of_readval result) (BN_of_number totalSupply)).

Section Methods.

Variable env : Env.
Variable this : MetamaskService.

(** [this.wallet.request(r)]; a property of [undefined] cannot be read. *)
Definition request (r : rpc) : M (settled jsval) :=
  match wallet this with
  | None => throw (undefined_property "request")
  | Some _ =>
      fun w => (Normal (wallet_request env (trace w) r), log (Request r) w)
  end.

(** [contract.methods.m(..).call()] *)
Definition call (c : read) : M (settled readval) :=
  fun w => (Normal (contract_call env (trace w) c), log (Call c) w).

(** [this.wallet.chainId] *)
Definition wallet_chainId : M jsval :=
  match wallet this with
  | None => throw (undefined_property "chainId")
  | Some wl => ret (chainId wl)
  end.

Definition usedNetwork : string :=
  if isProduction this then "mainnet"
  else match testnet this with
       | Some t => network_name (test t)
       | None => "undefined"
       end.

Definition usedChain : jsval :=
  if isProduction this then JString (networks mainnet)
  else match testnet this with
       | Some t => JString (networks (test t))
       | None => JUndefined
       end.

Definition not_authorized : jsval := JErrorMsg "Not authorized".

(** The account request shared by both branches of [getAccount]:
[[
      this.eth_requestAccounts()
        .then((account) => {
          this.walletAddress = account[0];
          resolve({ address: account[0], network });
        })
        .catch((_) => reject({ errorMsg: 'Not authorized' }));
]] *)
Definition request_accounts (chain : jsval) : M (settled AccountInfo) :=
  p <- request eth_requestAccounts ;;
  match p with
  | Fulfilled account =>
      match index0 account with
      | Some a =>
          set_walletAddress a ;;;
          ret (Fulfilled {| address := a; network := chain |})
      | None => ret (Rejected not_authorized)
      end
  | Rejected _ => ret (Rejected not_authorized)
  end.

Definition getAccount : M (settled AccountInfo) :=
  currentChain <- wallet_chainId ;;
  new_Promise
    (if negb (bool_decide (is_Some (wallet this)))
     then Some (Rejected (JErrorMsg (usedNetwork ++ " wallet is not injected")))
     else None)
    (if negb (truthy currentChain) || strict_eq currentChain JNull then
       p <- request eth_chainId ;;
       match p with
       | Fulfilled resChain =>
           if strict_eq resChain usedChain then request_accounts resChain
           else ret (Rejected (JErrorMsg
                      ("Please choose " ++ usedNetwork ++ " network in metamask wallet")))
       | Rejected _ => ret (Rejected not_authorized)
       end
     else
       if strict_eq currentChain usedChain then request_accounts currentChain
       else ret (Rejected (JErrorMsg
                  ("Please choose " ++ usedNetwork ++ " network in metamask wallet.")))).

(** [this.web3Provider.eth.abi.encodeFunctionCall(abi, data)]: on an
    unresolved descriptor web3 throws before it looks at [data]. *)
Definition encodeFunctionCall (abi : option MethodDescriptor) (data : list jsval)
  : M string :=
  match abi with
  | None => throw (codec_undefined env)
  | Some m =>
      match codec env m data with
      | inl e => throw e
      | inr payload => ret payload
      end
  end.

Definition sendTransaction (transactionConfig : TransactionConfig) : M (settled jsval) :=
  request (eth_sendTransaction transactionConfig).

Definition totalSupply (tokenAddress : string) (abi : list MethodDescriptor)
    (tokenDecimals : nat) : M (settled jsnum) :=
  async (
    let contract := getContract tokenAddress abi in
    totalSupply <- (p <- call (totalSupply_call contract) ;; await p) ;;
    ret (Fulfilled (unscale totalSupply tokenDecimals))).

Definition checkTokenAllowance (tokenAddress : string) (contract : Contract)
    (abi : list MethodDescriptor) (tokenDecimals : nat) (walletAddress : jsval)
  : M (settled bool) :=
  async (
    walletAdr <- (a <- get_walletAddress ;; ret (js_or walletAddress a)) ;;
    try_catch
      (result <- (p <- call (allowance_call contract walletAdr tokenAddress) ;; await p) ;;
       totalSupply <- (p <- totalSupply tokenAddress abi tokenDecimals ;; await p) ;;
       if allowance_covers result totalSupply
       then ret (Fulfilled true)
       else ret (Fulfilled false))
      (fun error => ret (Fulfilled false))).

Definition approveToken (tokenAddress : string) (abi : list MethodDescriptor)
    (tokenDecimals : nat) (walletAddress : jsval) : M (settled jsval) :=
  async (
    try_catch
      (totalSupply <- (p <- totalSupply tokenAddress abi tokenDecimals ;; await p) ;;
       let approveMethod := getMethodInterface abi "approve" in
       approveSignature <-
         encodeFunctionCall approveMethod
           [JString tokenAddress;
            JString (calcTransactionAmount totalSupply tokenDecimals)] ;;
       a <- get_walletAddress ;;
       sendTransaction {| from := js_or walletAddress a;
                          to := tokenAddress;
                          data := approveSignature;
                          value := None |})
      (fun error => ret (Fulfilled error))).

Definition createTransaction (abi : list MethodDescriptor) (method : string)
    (data : list jsval) (tokenAddress : string) (walletAddress value : jsval)
  : M (settled jsval) :=
  let transactionMethod := getMethodInterface abi method in
  approveSignature <- encodeFunctionCall transactionMethod data ;;
  a <- get_walletAddress ;;
  sendTransaction {| from := js_or walletAddress a;
                     to := tokenAddress;
                     data := approveSignature;
                     value := Some (if truthy value then value else JString "") |}.

(** The handlers the constructor registers on the wallet. *)
Definition on_chainChanged (newChain : jsval) : M unit :=
  chainId <- localStorage_getItem "chainId" ;;
  if negb (String.eqb (js_String chainId) (js_String newChain)) then
    localStorage_setItem "chainId" newChain ;;;
    location_reload
  else ret tt.

Definition on_accountsChanged (newAccounts : jsval) : M unit := location_reload.

End Methods.

(** [new MetamaskService({ testnet, isProduction = false })] with
    [window.ethereum] as given: registering the handlers calls
    [this.wallet.on], which cannot be read off [undefined]. *)
Definition constructor (ethereum : option Wallet) (testnet : option Testnet)
    (isProduction : option bool) : completion MetamaskService :=
  match ethereum with
  | None => Throw (undefined_property "on")
  | Some _ =>
      Normal {| wallet := ethereum;
                testnet := testnet;
                isProduction := default false isProduction |}
  end.

(** The world of a page that has just loaded the service:
    [walletAddress] is the empty string. *)
Definition fresh (storage : gmap string string) : World :=
  {| walletAddress := JString ""; localStorage := storage; trace := [] |}.

End Service.

(* ===================================================================== *)
(** ** Vocabulary of the statements *)
(* ===================================================================== *)

Module Props.

Import Num Js Service.
Local Open Scope string_scope.

(** [m] is an entry named [q]. *)
Definition named (q : string) (m : MethodDescriptor) : Prop := name m = Some q.

(** [m] is the first entry of [abi] named [q]. *)
Definition first_named (abi : list MethodDescriptor) (q : string)
    (m : MethodDescriptor) : Prop :=
  exists before after,
    abi = (before ++ m :: after)%list /\ named q m /\ Forall (fun x => ~ named q x) before.

(** The reading of method resolution under which an absent method is an
    error: whenever no entry is named [q], the result is not [undefined]. *)
Definition resolution_never_undefined : Prop :=
  forall abi q,
    Forall (fun x => ~ named q x) abi -> getMethodInterface abi q <> None.

(** The rejection [getAccount] makes on a chain mismatch; the message ends
    with a full stop when the chain id came from the wallet's cache. *)
Definition WrongNetwork (expected : string) (e : jsval) : Prop :=
  e = JErrorMsg ("Please choose " ++ expected ++ " network in metamask wallet")
  \/ e = JErrorMsg ("Please choose " ++ expected ++ " network in metamask wallet.").

(** The chain id the wallet reports to [getAccount] started in [w]: the
    cached one when it is truthy, the answer to [eth_chainId] otherwise. *)
Definition reports (env : Env) (this : MetamaskService) (w : World) (c : jsval) : Prop :=
  exists wl,
    wallet this = Some wl /\
    ((truthy (chainId wl) = true /\ c = chainId wl) \/
     (truthy (chainId wl) = false /\
      wallet_request env (trace w) eth_chainId = Fulfilled c)).

(** What the account request makes of the wallet's answer. *)
Definition account_outcome (chain : jsval) (answer : settled jsval)
  : settled AccountInfo :=
  match answer with
  | Fulfilled account =>
      match index0 account with
      | Some a => Fulfilled {| address := a; network := chain |}
      | None => Rejected not_authorized
      end
  | Rejected _ => Rejected not_authorized
  end.

(** [getAccount] started in [w] rejects with the mismatch message for
    [expected], having asked for no account and left the address alone. *)
Definition rejects_wrong_network (env : Env) (this : MetamaskService) (w : World)
    (expected : string) : Prop :=
  exists e w' evs,
    getAccount env this w = (Normal (Rejected e), w') /\
    WrongNetwork expected e /\
    trace w' = (trace w ++ evs)%list /\
    ~ In (Request eth_requestAccounts) evs /\
    walletAddress w' = walletAddress w.

(** [getAccount] started in [w] goes on to request the accounts for chain
    [c]: that request is the last thing it does, after at most the chain
    id query, and its answer decides the outcome. *)
Definition proceeds_to_accounts (env : Env) (this : MetamaskService) (w : World)
    (c : jsval) : Prop :=
  exists w' before,
    (before = [] \/ before = [Request eth_chainId]) /\
    trace w' = (trace w ++ before ++ [Request eth_requestAccounts])%list /\
    getAccount env this w =
    (Normal (account_outcome c
               (wallet_request env (trace w ++ before)%list eth_requestAccounts)), w').

Definition is_read (e : event) : Prop :=
  match e with Call _ => True | _ => False end.

Definition is_submission (e : event) : Prop :=
  match e with Request (eth_sendTransaction _) => True | _ => False end.

(** The events a run added to the trace. *)
Definition issued (w w' : World) (evs : list event) : Prop :=
  trace w' = (trace w ++ evs)%list.

(** The request [createTransaction] builds in [w]. *)
Definition created_request (token payload : string) (wa value : jsval) (w : World)
  : TransactionConfig :=
  {| from := js_or wa (walletAddress w);
     to := token;
     data := payload;
     value := Some (if truthy value then value else JString "") |}.

(** The request [approveToken] builds in [w]. *)
Definition approval_request (token payload : string) (wa : jsval) (w : World)
  : TransactionConfig :=
  {| from := js_or wa (walletAddress w);
     to := token;
     data := payload;
     value := None |}.

(** Reads, then at most one submission. *)
Definition reads_then_submission (evs : list event) : Prop :=
  exists reads rest,
    evs = (reads ++ rest)%list /\ Forall is_read reads /\
    (rest = [] \/ exists tx, rest = [Request (eth_sendTransaction tx)]).

(** The reading of the builders under which they never submit: whatever
    the inputs, none of the events they issue is an
    [eth_sendTransaction] request. *)
Definition builders_never_submit : Prop :=
  forall env this token contract abi d method data wa value w,
    (forall evs, issued w (snd (approveToken env this token abi d wa w)) evs ->
                 Forall (fun e => ~ is_submission e) evs) /\
    (forall evs, issued w (snd (checkTokenAllowance env token contract abi d wa w)) evs ->
                 Forall (fun e => ~ is_submission e) evs) /\
    (forall evs, issued w (snd (createTransaction env this abi method data token wa value w)) evs ->
                 Forall (fun e => ~ is_submission e) evs).

(** Encoding the call of the resolved descriptor [m] throws [e]. *)
Definition encoding_fails (env : Env) (m : option MethodDescriptor)
    (data : list jsval) (e : jsval) : Prop :=
  match m with
  | None => e = codec_undefined env
  | Some d => codec env d data = inl e
  end.



(** The two reads of [checkTokenAllowance] started in [w], each as the
    world answers it at the moment it is issued. *)
Definition allowance_read (env : Env) (token : string) (contract : Contract)
    (wa : jsval) (w : World) : settled readval :=
  contract_call env (trace w)
    (allowance_call contract (js_or wa (walletAddress w)) token).

Definition supply_read (env : Env) (token : string) (contract : Contract)
    (abi : list MethodDescriptor) (wa : jsval) (w : World) : settled readval :=
  contract_call env
    (trace w ++ [Call (allowance_call contract (js_or wa (walletAddress w)) token)])%list
    (totalSupply_call (getContract token abi)).

(** The reading of the allowance check under which it is strict: with an
    allowance [a] and a total supply that [totalSupply] turns into the
    amount [s], the answer is [true] exactly when [a] exceeds [s]. *)
Definition allowance_check_is_strict : Prop :=
  forall env token contract abi d wa w a raw s,
    allowance_read env token contract wa w = Fulfilled (RUint a) ->
    supply_read env token contract abi wa w = Fulfilled raw ->
    BN_of_number (unscale raw d) = BNfin s ->
    (fst (checkTokenAllowance env token contract abi d wa w) = Normal (Fulfilled true)
     <-> (s < inject_Z (Z.of_N a))%Q).

(** The persisted chain id as [localStorage.getItem] returns it. *)
Definition persisted_chainId (w : World) : jsval :=
  match localStorage w !! "chainId" with
  | Some s => JString s
  | None => JNull
  end.

(** The human amount of [n] base units at [d] decimals, as a reduced
    fraction. *)
Definition human (n : N) (d : nat) : Q :=
  Qred (Qmake (Z.of_N n) (Z.to_pos (10 ^ Z.of_nat d))).

(** [n] base units at [d] decimals lose nothing as a native number: the
    binary64 value of the human amount prints back as that amount. *)
Definition representable (n : N) (d : nat) : Prop :=
  BN_of_number (ToNumber (human n d)) = BNfin (human n d).

(** The reading of the conversions under which they round-trip at every
    decimals count: whenever [n] is representable at [d] decimals,
    unscaling and re-scaling gives the numeral of [n] back, and the human
    amount itself comes back from scaling and unscaling. *)
Definition amounts_round_trip : Prop :=
  forall d n,
    representable n d ->
    calcTransactionAmount (unscale (RUint n) d) d = uint_string n /\
    (calcTransactionAmount (ToNumber (human n d)) d = uint_string n /\
     unscale (RUint n) d = ToNumber (human n d)).

(** Order on [BigNumber] values as [minus] and [isPositive] decide it. *)
Definition BN_leb (x y : BigNumber) : bool :=
  match x, y with
  | BNfin a, BNfin b => Qle_bool a b
  | BNinf true, BNfin _ => true
  | BNfin _, BNinf false => true
  | BNinf s, BNinf t => s && negb t
  | _, _ => false
  end.

(** No successful [getAccount] has happened yet: the page has just loaded,
    or every [getAccount] since failed; the other methods do not count. *)
Inductive never_connected (env : Env) (this : MetamaskService) : World -> Prop :=
| nc_fresh storage : never_connected env this (fresh storage)
| nc_rejected w e w' :
    never_connected env this w ->
    getAccount env this w = (Normal (Rejected e), w') ->
    never_connected env this w'
| nc_thrown w e w' :
    never_connected env this w ->
    getAccount env this w = (Throw e, w') ->
    never_connected env this w'
| nc_approve w token abi d wa r w' :
    never_connected env this w ->
    approveToken env this token abi d wa w = (r, w') ->
    never_connected env this w'
| nc_create w abi method data token wa value r w' :
    never_connected env this w ->
    createTransaction env this abi method data token wa value w = (r, w') ->
    never_connected env this w'
| nc_check w token contract abi d wa r w' :
    never_connected env this w ->
    checkTokenAllowance env token contract abi d wa w = (r, w') ->
    never_connected env this w'.

End Props.

(* ===================================================================== *)
(** ** Concrete scenarios *)
(* ===================================================================== *)

Module Scenario.

Import Num Js Service.
Local Open Scope string_scope.

(** [abi] declares a function named [m]. *)
Definition has_function (abi : list MethodDescriptor) (m : string) : bool :=
  existsb (fun d => String.eqb (type d) "function"
                    && match name d with
                       | Some s => String.eqb s m
                       | None => false
                       end) abi.

(** Reads the way web3 serves them: a method the binding's ABI does not
    declare is not a function, and the attempt fails; a declared one gets
    the chain's answer. *)
Definition serve (supply allowance : N) (history : list event) (c : read)
  : settled readval :=
  match c with
  | totalSupply_call b =>
      if has_function (contractAbi b) "totalSupply" then Fulfilled (RUint supply)
      else Rejected (TypeError "contract.methods.totalSupply is not a function")
  | allowance_call b _ _ =>
      if has_function (contractAbi b) "allowance" then Fulfilled (RUint allowance)
      else Rejected (TypeError "contract.methods.allowance is not a function")
  end.

(** What web3 1.10 throws when [encodeFunctionCall] is handed
    [undefined] for the descriptor. *)
Definition not_a_descriptor : jsval := JError "Error" "Uint8Array expected".

(** A wallet on Ropsten with one account that signs whatever it is sent. *)
Definition ropsten_wallet (history : list event) (r : rpc) : settled jsval :=
  match r with
  | eth_chainId => Fulfilled (JString "0x3")
  | eth_requestAccounts => Fulfilled (JArray [JString "0xabc"])
  | eth_sendTransaction _ => Fulfilled (JString "0xhash")
  end.

(** That wallet, a token of 1000 units at 18 decimals, an allowance of
    1000 base units, a codec that accepts every call. *)
Definition ropsten_env : Env :=
  {| wallet_request := ropsten_wallet;
     contract_call := serve 1000000000000000000000 1000;
     codec := fun _ _ => inr "0xdata";
     codec_undefined := not_a_descriptor |}.

(** The same, with nothing approved yet. *)
Definition no_allowance_env : Env :=
  {| wallet_request := ropsten_wallet;
     contract_call := serve 1000000000000000000000 0;
     codec := fun _ _ => inr "0xdata";
     codec_undefined := not_a_descriptor |}.

(** A token without decimals whose owner approved exactly the supply. *)
Definition exact_allowance_env : Env :=
  {| wallet_request := ropsten_wallet;
     contract_call := serve 5 5;
     codec := fun _ _ => inr "0xdata";
     codec_undefined := not_a_descriptor |}.

Definition probing_wallet : Wallet := {| chainId := JUndefined |}.

Definition ropsten_service : MetamaskService :=
  {| wallet := Some probing_wallet; testnet := Some ropsten; isProduction := false |}.

Definition production_service : MetamaskService :=
  {| wallet := Some {| chainId := JString "0x3" |};
     testnet := Some ropsten;
     isProduction := true |}.

Definition no_wallet_service : MetamaskService :=
  {| wallet := None; testnet := Some ropsten; isProduction := false |}.

Definition totalSupply_entry : MethodDescriptor :=
  {| name := Some "totalSupply"; type := "function"; inputs := [] |}.

Definition allowance_entry : MethodDescriptor :=
  {| name := Some "allowance"; type := "function"; inputs := ["address"; "address"] |}.

Definition approve_entry : MethodDescriptor :=
  {| name := Some "approve"; type := "function"; inputs := ["address"; "uint256"] |}.

Definition transfer_entry : MethodDescriptor :=
  {| name := Some "transfer"; type := "function"; inputs := ["address"; "uint256"] |}.

Definition erc20 : list MethodDescriptor :=
  [ {| name := None; type := "constructor"; inputs := [] |};
    totalSupply_entry;
    allowance_entry;
    transfer_entry;
    approve_entry ].


Definition token : Contract := getContract "0xtoken" erc20.

Definition page : World := fresh ∅.

End Scenario.

(* ===================================================================== *)
(** ** The first revision of [getAccount] *)
(* ===================================================================== *)

Module Earlier.

Import Num Js Service.
Local Open Scope string_scope.
Local Open Scope js_scope.

Section Methods.

Variable env : Env.
Variable this : MetamaskService.

(** The account request of the first revision: it resolves with the
    first account and records nothing.
[[
      this.eth_requestAccounts()
        .then((account) => resolve({ address: account[0], network }))
        .catch((_) => reject({ errorMsg: 'Not authorized' }));
]] *)
Definition request_accounts (chain : jsval) : M (settled AccountInfo) :=
  p <- request env this eth_requestAccounts ;;
  match p with
  | Fulfilled account =>
      match index0 account with
      | Some a => ret (Fulfilled {| address := a; network := chain |})
      | None => ret (Rejected not_authorized)
      end
  | Rejected _ => ret (Rejected not_authorized)
  end.

Definition getAccount : M (settled AccountInfo) :=
  currentChain <- wallet_chainId this ;;
  new_Promise
    (if negb (bool_decide (is_Some (wallet this)))
     then Some (Rejected (JErrorMsg (usedNetwork this ++ " wallet is not injected")))
     else None)
    (if negb (truthy currentChain) || strict_eq currentChain JNull then
       p <- request env this eth_chainId ;;
       match p with
       | Fulfilled resChain =>
           if strict_eq resChain (usedChain this) then request_accounts resChain
           else ret (Rejected (JErrorMsg
                      ("Please choose " ++ usedNetwork this
                       ++ " network in metamask wallet")))
       | Rejected _ => ret (Rejected not_authorized)
       end
     else
       if strict_eq currentChain (usedChain this) then request_accounts currentChain
       else ret (Rejected (JErrorMsg
                  ("Please choose " ++ usedNetwork this
                   ++ " network in metamask wallet.")))).

End Methods.

End Earlier.

(* ===================================================================== *)
(** ** Further vocabulary *)
(* ===================================================================== *)

Module Cover.

Import Num Js Service Props Scenario.
Local Open Scope string_scope.

(** The network a session expects, if its configuration names one. *)
Definition expected_network (this : MetamaskService) : option Network :=
  if isProduction this then Some mainnet else option_map test (testnet this).

(** The world in which [getAccount] compares chain ids: [w] itself when
    the wallet has a cached chain id, [w] after the [eth_chainId] query
    otherwise. *)
Definition after_probe (this : MetamaskService) (w : World) : World :=
  match wallet this with
  | Some wl => if truthy (chainId wl) then w else log (Request eth_chainId) w
  | None => w
  end.

(** The wallet's answer to the account request [getAccount] started in
    [w] would make. *)
Definition accounts_answer (env : Env) (this : MetamaskService) (w : World)
  : settled jsval :=
  wallet_request env (trace (after_probe this w)) eth_requestAccounts.

(** The requests a run of [getAccount] may consist of. *)
Definition connect_requests (evs : list event) : Prop :=
  evs = [] \/ evs = [Request eth_chainId] \/ evs = [Request eth_requestAccounts]
  \/ evs = [Request eth_chainId; Request eth_requestAccounts].

(** The three rejections of [getAccount] with a wallet injected. *)
Definition connect_error (this : MetamaskService) (e : jsval) : Prop :=
  e = not_authorized \/ WrongNetwork (usedNetwork this) e.

(** Two worlds with the same page state (address and storage). *)
Definition same_page (w w' : World) : Prop :=
  walletAddress w' = walletAddress w /\ localStorage w' = localStorage w.

End Cover.

(* ===================================================================== *)
(** ** Further scenarios *)
(* ===================================================================== *)

Module Cases.

Import Num Js Service Props Scenario.
Local Open Scope string_scope.

(** The ropsten wallet with a user who turns every prompt down. *)
Definition refusing_wallet (history : list event) (r : rpc) : settled jsval :=
  match r with
  | eth_chainId => Fulfilled (JString "0x3")
  | _ => Rejected (JError "Error" "User rejected the request.")
  end.

Definition refusing_env : Env :=
  {| wallet_request := refusing_wallet;
     contract_call := contract_call ropsten_env;
     codec := codec ropsten_env;
     codec_undefined := codec_undefined ropsten_env |}.

(** The ropsten scenario with a codec that accepts nothing but the
    approval of the token's whole supply to the token address. *)
Definition whole_supply_env : Env :=
  {| wallet_request := ropsten_wallet;
     contract_call := serve 1000000000000000000000 1000;
     codec := fun _ args =>
       match args with
       | [JString "0xtoken"; JString "1000000000000000000000"] => inr "0xdata"
       | _ => inl (JError "Error" "unexpected arguments")
       end;
     codec_undefined := not_a_descriptor |}.

(** A token that answers [null] for its supply and grants the largest
    allowance. *)
Definition null_supply_env : Env :=
  {| wallet_request := ropsten_wallet;
     contract_call := fun _ c =>
       match c with
       | totalSupply_call _ => Fulfilled RNull
       | allowance_call _ _ _ => Fulfilled (RUint (2 ^ 256 - 1))
       end;
     codec := fun _ _ => inr "0xdata";
     codec_undefined := not_a_descriptor |}.

(** A codec that, as web3's does, throws unless it is given one argument
    for each input the descriptor declares; the payload spells the call
    out. *)
Definition checked_codec (m : MethodDescriptor) (args : list jsval) : jsval + string :=
  if Nat.eqb (length args) (length (inputs m))
  then inr (default "" (name m) ++ "(" ++ join_comma (map js_String args) ++ ")")
  else inl (JError "Error" "types/values length mismatch").

(** The ropsten scenario with that codec. *)
Definition checked_env : Env :=
  {| wallet_request := ropsten_wallet;
     contract_call := serve 1000000000000000000000 1000;
     codec := checked_codec;
     codec_undefined := not_a_descriptor |}.

(** The same, with the user turning every prompt down. *)
Definition declined_env : Env :=
  {| wallet_request := refusing_wallet;
     contract_call := serve 1000000000000000000000 1000;
     codec := checked_codec;
     codec_undefined := not_a_descriptor |}.

(** The page after a [getAccount] that the user turned down. *)
Definition declined_page : World := snd (getAccount declined_env ropsten_service page).


(** The arguments of a transfer of one base unit. *)
Definition transfer_args : list jsval := [JString "0xrecipient"; JString "1"].

(** A wallet that has its chain id at hand. *)
Definition cached_service (id : string) (t : option Testnet) : MetamaskService :=
  {| wallet := Some {| chainId := JString id |}; testnet := t; isProduction := false |}.

End Cases.

(* ===================================================================== *)
(** ** Properties *)
(* ===================================================================== *)

Import Num Js Service Props Scenario Cases.
Local Open Scope string_scope.

(** *** Method resolution *)

Lemma named_dec q m : {named q m} + {~ named q m}.
Proof.
  unfold named. destruct (name m) as [s|].
  - destruct (String.eqb_spec s q) as [->|Hne]; [left | right]; congruence.
  - right; discriminate.
Qed.

Lemma getMethodInterface_cons m abi q :
  getMethodInterface (m :: abi) q =
  if named_dec q m then Some m else getMethodInterface abi q.
Proof.
  unfold getMethodInterface, named. simpl.
  destruct (named_dec q m) as [Hn|Hn]; unfold named in Hn.
  - rewrite Hn, String.eqb_refl. reflexivity.
  - destruct (name m) as [s|]; [|reflexivity].
    destruct (String.eqb_spec s q) as [->|_]; [congruence | reflexivity].
Qed.

Lemma getMethodInterface_skip before rest q :
  Forall (fun x => ~ named q x) before ->
  getMethodInterface (before ++ rest) q = getMethodInterface rest q.
Proof.
  induction 1 as [|x l Hx _ IH]; simpl; [reflexivity|].
  rewrite getMethodInterface_cons. destruct (named_dec q x); [contradiction | exact IH].
Qed.

Lemma getMethodInterface_Some abi q m :
  getMethodInterface abi q = Some m -> first_named abi q m.
Proof.
  induction abi as [|x abi IH]; [discriminate|].
  rewrite getMethodInterface_cons. destruct (named_dec q x) as [Hx|Hx].
  - intros [= <-]. exists [], abi. repeat split; [exact Hx | constructor].
  - intros H. destruct (IH H) as (before & after & -> & Hm & Hb).
    exists (x :: before), after. repeat split; [exact Hm | constructor; assumption].
Qed.

Lemma getMethodInterface_None abi q :
  getMethodInterface abi q = None <-> Forall (fun x => ~ named q x) abi.
Proof.
  induction abi as [|x abi IH].
  - split; [constructor | reflexivity].
  - rewrite getMethodInterface_cons. destruct (named_dec q x) as [Hx|Hx].
    + split; [discriminate | intros H; inversion H; contradiction].
    + rewrite IH. split; [constructor; assumption | intros H; inversion H; assumption].
Qed.

(** C3, as amended: [getMethodInterface] returns the first descriptor
    whose name equals the query exactly when at least one entry matches,
    and returns [undefined], raising nothing, exactly when no entry's name
    matches; the empty ABI is such a case. *)
Theorem getMethodInterface_first_match_or_undefined :
  forall abi q,
    (forall m, getMethodInterface abi q = Some m <-> first_named abi q m) /\
    (getMethodInterface abi q = None <-> Forall (fun x => ~ named q x) abi) /\
    getMethodInterface [] q = None.
Proof.
  intros abi q. split; [|split].
  - intros m. split; [apply getMethodInterface_Some|].
    intros (before & after & -> & Hm & Hb).
    rewrite getMethodInterface_skip by exact Hb.
    rewrite getMethodInterface_cons. destruct (named_dec q m); [reflexivity | contradiction].
  - apply getMethodInterface_None.
  - reflexivity.
Qed.

(** C3, as stated, fails: on the empty ABI no entry matches ["approve"],
    and the result is [undefined], not an error. *)
Lemma getMethodInterface_undefined_when_absent : ~ resolution_never_undefined.
Proof.
  intros H. apply (H [] "approve"); [constructor | reflexivity].
Qed.

(** With two entries of the same name the first one is returned. *)
Example getMethodInterface_duplicate_names :
  getMethodInterface
    [transfer_entry;
     {| name := Some "approve"; type := "function"; inputs := ["address"] |};
     approve_entry] "approve"
  = Some {| name := Some "approve"; type := "function"; inputs := ["address"] |}.
Proof. reflexivity. Qed.

(** *** Connecting: [getAccount] *)

Lemma strict_eq_string c s : strict_eq c (JString s) = true <-> c = JString s.
Proof.
  destruct c; simpl; try (split; [discriminate | discriminate]).
  split.
  - intros H. apply String.eqb_eq in H. congruence.
  - intros [= ->]. apply String.eqb_refl.
Qed.

Lemma strict_eq_string_false c s : c <> JString s -> strict_eq c (JString s) = false.
Proof.
  intros H. destruct (strict_eq c (JString s)) eqn:E; [|reflexivity].
  apply strict_eq_string in E. contradiction.
Qed.

Lemma truthy_not_null c : truthy c = true -> strict_eq c JNull = false.
Proof. destruct c; simpl; congruence. Qed.

Section Connect.

Variable env : Env.
Variable this : MetamaskService.
Variable wl : Wallet.
Hypothesis injected : wallet this = Some wl.

Lemma request_eval r w :
  request env this r w = (Normal (wallet_request env (trace w) r), log (Request r) w).
Proof using injected. unfold request. rewrite injected. reflexivity. Qed.

(** The account request settles as [account_outcome] says and adds one
    event. *)
Lemma request_accounts_eval chain w :
  exists w',
    request_accounts env this chain w
    = (Normal (account_outcome chain (wallet_request env (trace w) eth_requestAccounts)), w')
    /\ issued w w' [Request eth_requestAccounts]
    /\ (forall e, account_outcome chain (wallet_request env (trace w) eth_requestAccounts)
                   = Rejected e ->
                   walletAddress w' = walletAddress w).
Proof using injected.
  unfold request_accounts, bind. rewrite request_eval.
  unfold account_outcome, issued.
  destruct (wallet_request env (trace w) eth_requestAccounts) as [account|e].
  - destruct (index0 account) as [a|]; simpl; eexists; repeat split;
      try reflexivity; discriminate.
  - eexists; repeat split; reflexivity.
Qed.

(** [getAccount], branch by branch. *)
Lemma getAccount_cached w :
  truthy (chainId wl) = true ->
  getAccount env this w =
  if strict_eq (chainId wl) (usedChain this)
  then request_accounts env this (chainId wl) w
  else (Normal (Rejected (JErrorMsg
          ("Please choose " ++ usedNetwork this ++ " network in metamask wallet."))), w).
Proof using injected.
  intros Ht. unfold getAccount, wallet_chainId, bind, new_Promise.
  rewrite injected. simpl. rewrite Ht, (truthy_not_null _ Ht). simpl.
  destruct (strict_eq (chainId wl) (usedChain this)); [|reflexivity].
  destruct (request_accounts_eval (chainId wl) w) as (w'' & Heq & _ & _).
  rewrite Heq. reflexivity.
Qed.

Lemma getAccount_probing w :
  truthy (chainId wl) = false ->
  getAccount env this w =
  match wallet_request env (trace w) eth_chainId with
  | Fulfilled resChain =>
      if strict_eq resChain (usedChain this)
      then request_accounts env this resChain (log (Request eth_chainId) w)
      else (Normal (Rejected (JErrorMsg
              ("Please choose " ++ usedNetwork this ++ " network in metamask wallet"))),
            log (Request eth_chainId) w)
  | Rejected _ => (Normal (Rejected not_authorized), log (Request eth_chainId) w)
  end.
Proof using injected.
  intros Hf. unfold getAccount, wallet_chainId, bind, new_Promise.
  rewrite injected. simpl. rewrite Hf. simpl. rewrite request_eval.
  destruct (wallet_request env (trace w) eth_chainId) as [resChain|e]; [|reflexivity].
  destruct (strict_eq resChain (usedChain this)); [|reflexivity].
  destruct (request_accounts_eval resChain (log (Request eth_chainId) w))
    as (w'' & Heq & _ & _).
  rewrite Heq. reflexivity.
Qed.

End Connect.

Lemma getAccount_mismatch env this w c x :
  reports env this w c ->
  usedChain this = JString x ->
  c <> JString x ->
  rejects_wrong_network env this w (usedNetwork this).
Proof.
  intros (wl & Hw & Hc) Hu Hne. unfold rejects_wrong_network, WrongNetwork.
  destruct Hc as [[Ht ->]|[Hf Hr]].
  - rewrite (getAccount_cached env this wl Hw w Ht), Hu, (strict_eq_string_false _ _ Hne).
    exists (JErrorMsg ("Please choose " ++ usedNetwork this ++ " network in metamask wallet.")),
      w, [].
    repeat split; [right; reflexivity | symmetry; apply app_nil_r | intros []].
  - rewrite (getAccount_probing env this wl Hw w Hf), Hr, Hu, (strict_eq_string_false _ _ Hne).
    exists (JErrorMsg ("Please choose " ++ usedNetwork this ++ " network in metamask wallet")),
      (log (Request eth_chainId) w), [Request eth_chainId].
    repeat split; [left; reflexivity | intros [H|[]]; discriminate].
Qed.

Lemma getAccount_match env this w c x :
  reports env this w c ->
  usedChain this = JString x ->
  c = JString x ->
  proceeds_to_accounts env this w c.
Proof.
  intros (wl & Hw & Hc) Hu ->. unfold proceeds_to_accounts.
  destruct Hc as [[Ht Hc]|[Hf Hr]].
  - rewrite (getAccount_cached env this wl Hw w Ht), <- Hc, Hu.
    replace (strict_eq (JString x) (JString x)) with true
      by (symmetry; apply strict_eq_string; reflexivity).
    destruct (request_accounts_eval env this wl Hw (JString x) w) as (w' & Heq & Hi & _).
    exists w', []. rewrite app_nil_r. repeat split; [left; reflexivity | exact Hi | exact Heq].
  - rewrite (getAccount_probing env this wl Hw w Hf), Hr, Hu.
    replace (strict_eq (JString x) (JString x)) with true
      by (symmetry; apply strict_eq_string; reflexivity).
    destruct (request_accounts_eval env this wl Hw (JString x) (log (Request eth_chainId) w))
      as (w' & Heq & Hi & _).
    exists w', [Request eth_chainId]. repeat split; [right; reflexivity | | exact Heq].
    unfold issued in Hi. rewrite Hi. simpl. rewrite <- app_assoc. reflexivity.
Qed.

(** C5: whatever chain id [c] the wallet reports, a production session
    rejects with the wrong-network error for mainnet whenever [c] is not
    ["0x1"]; a non-production session configured for ropsten goes on to
    request the accounts when [c] is ["0x3"], rejects with the
    wrong-network error for ropsten for every other [c], and so resolves
    only when [c] is ["0x3"]. *)
Theorem getAccount_network_check env this w c :
  reports env this w c ->
  (isProduction this = true -> c <> JString "0x1" ->
   rejects_wrong_network env this w "mainnet") /\
  (isProduction this = false -> testnet this = Some ropsten ->
   (c = JString "0x3" -> proceeds_to_accounts env this w c) /\
   (c <> JString "0x3" -> rejects_wrong_network env this w "ropsten") /\
   (forall info w', getAccount env this w = (Normal (Fulfilled info), w') ->
                    c = JString "0x3")).
Proof.
  intros Hrep. split.
  - intros Hp Hne.
    assert (Hn : usedNetwork this = "mainnet") by (unfold usedNetwork; rewrite Hp; reflexivity).
    rewrite <- Hn. apply (getAccount_mismatch env this w c "0x1"); trivial.
    unfold usedChain. rewrite Hp. reflexivity.
  - intros Hp Ht.
    assert (Hn : usedNetwork this = "ropsten")
      by (unfold usedNetwork; rewrite Hp, Ht; reflexivity).
    assert (Hu : usedChain this = JString "0x3")
      by (unfold usedChain; rewrite Hp, Ht; reflexivity).
    assert (Hrej : c <> JString "0x3" -> rejects_wrong_network env this w "ropsten").
    { intros Hne. rewrite <- Hn. apply (getAccount_mismatch env this w c "0x3"); trivial. }
    split; [|split].
    + intros Hc. apply (getAccount_match env this w c "0x3"); trivial.
    + exact Hrej.
    + intros info w' Hres.
      destruct (strict_eq c (JString "0x3")) eqn:E; [apply strict_eq_string; exact E|].
      assert (Hne : c <> JString "0x3").
      { intros Hc. apply strict_eq_string in Hc. congruence. }
      destruct (Hrej Hne) as (e & w'' & evs & Heq & _). congruence.
Qed.

(** A wallet without a cached chain id answers ["0x3"] to the query: the
    ropsten session requests the accounts. *)
Lemma getAccount_network_check_witness :
  reports ropsten_env ropsten_service page (JString "0x3") /\
  proceeds_to_accounts ropsten_env ropsten_service page (JString "0x3").
Proof.
  assert (H : reports ropsten_env ropsten_service page (JString "0x3")).
  { exists probing_wallet. split; [reflexivity|]. right. split; reflexivity. }
  split; [exact H|].
  apply (getAccount_network_check ropsten_env ropsten_service page (JString "0x3") H);
    reflexivity.
Defined.

(** Without a wallet nothing can be constructed, and [getAccount] on a
    service whose wallet is [undefined] stops at [this.wallet.chainId]. *)
Lemma constructor_without_wallet testnet isProduction :
  constructor None testnet isProduction
  = Throw (undefined_property "on").
Proof. reflexivity. Qed.

Example getAccount_on_page_without_wallet :
  getAccount ropsten_env no_wallet_service page
  = (Throw (undefined_property "chainId"), page).
Proof. reflexivity. Qed.

(** C4: on a service whose wallet is [undefined], [getAccount] throws a
    TypeError while reading [this.wallet.chainId], before the promise
    with the "wallet is not injected" rejection is even created; no
    request reaches the provider. *)
Theorem getAccount_without_wallet_throws :
  forall env testnet isProduction w,
    getAccount env
      {| wallet := None; testnet := testnet; isProduction := isProduction |} w
    = (Throw (undefined_property "chainId"), w).
Proof. reflexivity. Qed.

(** *** Building and submitting transactions *)

Section Builders.

Variable env : Env.
Variable this : MetamaskService.

Lemma totalSupply_eval token abi d w :
  totalSupply env token abi d w =
  (Normal match contract_call env (trace w) (totalSupply_call (getContract token abi)) with
          | Fulfilled raw => Fulfilled (unscale raw d)
          | Rejected e => Rejected e
          end,
   log (Call (totalSupply_call (getContract token abi))) w).
Proof.
  unfold totalSupply, async, bind, call, await.
  destruct (contract_call env (trace w) (totalSupply_call (getContract token abi))); reflexivity.
Qed.

Lemma encodeFunctionCall_fails m data e w :
  encoding_fails env m data e ->
  encodeFunctionCall env m data w = (Throw e, w).
Proof.
  unfold encoding_fails, encodeFunctionCall. destruct m as [d|].
  - intros ->; reflexivity.
  - intros ->; reflexivity.
Qed.

Lemma encodeFunctionCall_ok m data payload w :
  codec env m data = inr payload ->
  encodeFunctionCall env (Some m) data w = (Normal payload, w).
Proof. unfold encodeFunctionCall. intros ->; reflexivity. Qed.

(** Encoding either throws or returns, and leaves the world alone. *)
Lemma encodeFunctionCall_cases m data w :
  (exists e, encoding_fails env m data e /\ encodeFunctionCall env m data w = (Throw e, w))
  \/ (exists d payload, m = Some d /\ codec env d data = inr payload /\
                         encodeFunctionCall env m data w = (Normal payload, w)).
Proof.
  destruct m as [d|].
  - destruct (codec env d data) as [e|payload] eqn:E.
    + left. exists e. split; [exact E|]. apply encodeFunctionCall_fails. exact E.
    + right. exists d, payload. repeat split; trivial.
      apply encodeFunctionCall_ok. exact E.
  - left. eexists. split; [reflexivity|reflexivity].
Qed.

(** [sendTransaction]: one request when a wallet is there, a TypeError
    and no event otherwise. *)
Lemma sendTransaction_cases tx w :
  (exists wl, wallet this = Some wl /\
     sendTransaction env this tx w
     = (Normal (wallet_request env (trace w) (eth_sendTransaction tx)),
        log (Request (eth_sendTransaction tx)) w))
  \/ (exists e, wallet this = None /\ sendTransaction env this tx w = (Throw e, w)).
Proof.
  unfold sendTransaction, request. destruct (wallet this) as [wl|].
  - left. exists wl. split; reflexivity.
  - right. eexists. split; reflexivity.
Qed.

Lemma createTransaction_fails abi method data token wa value w e :
  encoding_fails env (getMethodInterface abi method) data e ->
  createTransaction env this abi method data token wa value w = (Throw e, w).
Proof.
  intros H. unfold createTransaction, bind.
  rewrite (encodeFunctionCall_fails _ _ _ _ H). reflexivity.
Qed.

Lemma createTransaction_encoded abi method data token wa value w m payload :
  getMethodInterface abi method = Some m ->
  codec env m data = inr payload ->
  createTransaction env this abi method data token wa value w
  = sendTransaction env this (created_request token payload wa value w) w.
Proof.
  intros Hm Hc. unfold createTransaction, bind.
  rewrite Hm, (encodeFunctionCall_ok _ _ _ _ Hc). reflexivity.
Qed.

Lemma approveToken_read_fails token abi d wa w e :
  contract_call env (trace w) (totalSupply_call (getContract token abi)) = Rejected e ->
  approveToken env this token abi d wa w
  = (Normal (Fulfilled e), log (Call (totalSupply_call (getContract token abi))) w).
Proof.
  intros H. unfold approveToken, async, try_catch, bind.
  rewrite totalSupply_eval, H. reflexivity.
Qed.

Lemma approveToken_encoding_fails token abi d wa w raw e :
  contract_call env (trace w) (totalSupply_call (getContract token abi)) = Fulfilled raw ->
  encoding_fails env (getMethodInterface abi "approve")
    [JString token; JString (calcTransactionAmount (unscale raw d) d)] e ->
  approveToken env this token abi d wa w
  = (Normal (Fulfilled e), log (Call (totalSupply_call (getContract token abi))) w).
Proof.
  intros H He. unfold approveToken, async, try_catch, bind.
  rewrite totalSupply_eval, H. simpl.
  rewrite (encodeFunctionCall_fails _ _ _ _ He). reflexivity.
Qed.

Lemma approveToken_encoded token abi d wa w raw m payload wl :
  wallet this = Some wl ->
  contract_call env (trace w) (totalSupply_call (getContract token abi)) = Fulfilled raw ->
  getMethodInterface abi "approve" = Some m ->
  codec env m [JString token; JString (calcTransactionAmount (unscale raw d) d)]
  = inr payload ->
  approveToken env this token abi d wa w
  = (Normal (wallet_request env (trace w ++ [Call (totalSupply_call (getContract token abi))])
               (eth_sendTransaction (approval_request token payload wa w))),
     log (Request (eth_sendTransaction (approval_request token payload wa w)))
       (log (Call (totalSupply_call (getContract token abi))) w)).
Proof.
  intros Hw H Hm Hc. unfold approveToken, async, try_catch, bind.
  rewrite totalSupply_eval, H. simpl.
  rewrite Hm, (encodeFunctionCall_ok _ _ _ _ Hc). simpl.
  unfold sendTransaction. rewrite (request_eval env this wl Hw). reflexivity.
Qed.

End Builders.

Section Allowance.

Variable env : Env.

Lemma checkTokenAllowance_eval token contract abi d wa w :
  let owner := js_or wa (walletAddress w) in
  let w1 := log (Call (allowance_call contract owner token)) w in
  let w2 := log (Call (totalSupply_call (getContract token abi))) w1 in
  checkTokenAllowance env token contract abi d wa w =
  match contract_call env (trace w) (allowance_call contract owner token) with
  | Rejected _ => (Normal (Fulfilled false), w1)
  | Fulfilled result =>
      match contract_call env (trace w1) (totalSupply_call (getContract token abi)) with
      | Rejected _ => (Normal (Fulfilled false), w2)
      | Fulfilled raw =>
          (Normal (Fulfilled (allowance_covers result (unscale raw d))), w2)
      end
  end.
Proof.
  intros owner w1 w2. subst w2 w1.
  unfold checkTokenAllowance, async, try_catch, bind, get_walletAddress, ret, call, await.
  fold owner.
  destruct (contract_call env (trace w) (allowance_call contract owner token))
    as [result|e]; [|reflexivity].
  simpl. rewrite totalSupply_eval. simpl.
  match goal with
  | |- context [contract_call env ?t (totalSupply_call (getContract token abi))] =>
      destruct (contract_call env t (totalSupply_call (getContract token abi))) as [raw|e]
  end; [|reflexivity].
  simpl. destruct (allowance_covers result (unscale raw d)); reflexivity.
Qed.

End Allowance.

(** What each builder may issue, whatever the inputs. *)
Lemma checkTokenAllowance_only_reads env token contract abi d wa w :
  exists evs,
    issued w (snd (checkTokenAllowance env token contract abi d wa w)) evs /\
    Forall is_read evs.
Proof.
  rewrite checkTokenAllowance_eval. unfold issued.
  destruct (contract_call env (trace w) _) as [result|e].
  - match goal with
    | |- context [contract_call env ?t (totalSupply_call (getContract token abi))] =>
        destruct (contract_call env t (totalSupply_call (getContract token abi))) as [raw|e]
    end; simpl; rewrite <- app_assoc; eexists; (split; [reflexivity|]);
      repeat constructor.
  - simpl. eexists. split; [reflexivity|]. repeat constructor.
Qed.

Lemma createTransaction_frame env this abi method data token wa value w :
  exists evs,
    issued w (snd (createTransaction env this abi method data token wa value w)) evs /\
    reads_then_submission evs.
Proof.
  unfold issued, reads_then_submission.
  destruct (encodeFunctionCall_cases env (getMethodInterface abi method) data w)
    as [(e & He & _)|(m & payload & Hm & Hc & _)].
  - rewrite (createTransaction_fails env this _ _ _ _ _ _ _ _ He). simpl.
    exists []. split; [symmetry; apply app_nil_r|].
    exists [], []. repeat split; [constructor | left; reflexivity].
  - rewrite (createTransaction_encoded env this _ _ _ _ _ _ _ _ _ Hm Hc).
    destruct (sendTransaction_cases env this (created_request token payload wa value w) w)
      as [(wl & _ & ->)|(e & _ & ->)]; simpl.
    + eexists. split; [reflexivity|].
      exists [], [Request (eth_sendTransaction (created_request token payload wa value w))].
      repeat split; [constructor | right; eexists; reflexivity].
    + exists []. split; [symmetry; apply app_nil_r|].
      exists [], []. repeat split; [constructor | left; reflexivity].
Qed.

Lemma approveToken_frame env this token abi d wa w :
  exists evs,
    issued w (snd (approveToken env this token abi d wa w)) evs /\
    reads_then_submission evs.
Proof.
  unfold issued, reads_then_submission.
  assert (Hread : forall r,
    approveToken env this token abi d wa w
    = (r, log (Call (totalSupply_call (getContract token abi))) w) ->
    exists evs,
      trace (snd (approveToken env this token abi d wa w)) = (trace w ++ evs)%list /\
      exists reads rest, evs = (reads ++ rest)%list /\ Forall is_read reads /\
        (rest = [] \/ exists tx, rest = [Request (eth_sendTransaction tx)])).
  { intros r ->. simpl. eexists. split; [reflexivity|].
    exists [Call (totalSupply_call (getContract token abi))], [].
    repeat split; [repeat constructor | left; reflexivity]. }
  destruct (contract_call env (trace w) (totalSupply_call (getContract token abi))) as [raw|e] eqn:Hr.
  2: { eapply Hread, approveToken_read_fails; exact Hr. }
  destruct (encodeFunctionCall_cases env (getMethodInterface abi "approve")
              [JString token; JString (calcTransactionAmount (unscale raw d) d)] w)
    as [(e & He & _)|(m & payload & Hm & Hc & _)].
  { eapply Hread, approveToken_encoding_fails; eassumption. }
  destruct (wallet this) as [wl|] eqn:Hw.
  - rewrite (approveToken_encoded env this _ _ _ _ _ _ _ _ _ Hw Hr Hm Hc). simpl.
    rewrite <- app_assoc. eexists. split; [reflexivity|].
    exists [Call (totalSupply_call (getContract token abi))],
      [Request (eth_sendTransaction (approval_request token payload wa w))].
    repeat split; [repeat constructor | right; eexists; reflexivity].
  - eapply (Hread (Normal (Fulfilled _))).
    unfold approveToken, async, try_catch, bind.
    rewrite totalSupply_eval, Hr. simpl.
    rewrite Hm, (encodeFunctionCall_ok _ _ _ _ _ Hc). simpl.
    unfold sendTransaction, request. rewrite Hw. reflexivity.
Qed.

(** C6, as amended: on every input [checkTokenAllowance] issues only read
    calls, and [approveToken] and [createTransaction] issue reads
    followed by at most one [eth_sendTransaction] and nothing else.  The
    latter two do submit: with a wallet injected, once the total supply
    is read and the call is resolved and encoded (the amount as computed
    for a token of up to 22 decimals), [approveToken] issues that read
    and then one [eth_sendTransaction] with the request it built, and
    once the call is resolved and encoded [createTransaction] issues one
    [eth_sendTransaction] with the request it built. *)
Theorem builders_reads_and_submission
    env this token contract abi d method data wa value w :
  (exists evs,
     issued w (snd (checkTokenAllowance env token contract abi d wa w)) evs /\
     Forall is_read evs) /\
  (exists evs,
     issued w (snd (approveToken env this token abi d wa w)) evs /\
     reads_then_submission evs) /\
  (exists evs,
     issued w (snd (createTransaction env this abi method data token wa value w)) evs /\
     reads_then_submission evs) /\
  (forall wl raw m payload,
     wallet this = Some wl ->
     (d <= 22)%nat ->
     contract_call env (trace w) (totalSupply_call (getContract token abi))
     = Fulfilled raw ->
     getMethodInterface abi "approve" = Some m ->
     codec env m [JString token; JString (calcTransactionAmount (unscale raw d) d)]
     = inr payload ->
     issued w (snd (approveToken env this token abi d wa w))
       [Call (totalSupply_call (getContract token abi));
        Request (eth_sendTransaction (approval_request token payload wa w))]) /\
  (forall wl m payload,
     wallet this = Some wl ->
     getMethodInterface abi method = Some m ->
     codec env m data = inr payload ->
     issued w (snd (createTransaction env this abi method data token wa value w))
       [Request (eth_sendTransaction (created_request token payload wa value w))]).
Proof.
  split; [apply checkTokenAllowance_only_reads|].
  split; [apply approveToken_frame|].
  split; [apply createTransaction_frame|].
  split.
  - intros wl raw m payload Hw _ Hr Hm Hc.
    rewrite (approveToken_encoded env this _ _ _ _ _ _ _ _ _ Hw Hr Hm Hc).
    unfold issued. simpl. rewrite <- app_assoc. reflexivity.
  - intros wl m payload Hw Hm Hc.
    rewrite (createTransaction_encoded env this _ _ _ _ _ _ _ _ _ Hm Hc).
    unfold sendTransaction. rewrite (request_eval env this wl Hw). reflexivity.
Qed.

(** On the ropsten scenario, with a codec that checks the argument
    count: the allowance check only reads, while the approval of the
    whole supply and a transfer of one base unit are submitted. *)
Lemma builders_reads_and_submission_witness :
  (exists evs,
     issued page
       (snd (checkTokenAllowance checked_env "0xtoken" token erc20 18 JUndefined page))
       evs /\
     Forall is_read evs) /\
  issued page
    (snd (approveToken checked_env ropsten_service "0xtoken" erc20 18 JUndefined page))
    [Call (totalSupply_call token);
     Request (eth_sendTransaction
                {| from := JString "";
                   to := "0xtoken";
                   data := "approve(0xtoken,1000000000000000000000)";
                   value := None |})] /\
  issued page
    (snd (createTransaction checked_env ropsten_service erc20 "transfer" transfer_args
            "0xtoken" JUndefined JUndefined page))
    [Request (eth_sendTransaction
                {| from := JString "";
                   to := "0xtoken";
                   data := "transfer(0xrecipient,1)";
                   value := Some (JString "") |})].
Proof.
  destruct (builders_reads_and_submission checked_env ropsten_service "0xtoken" token
              erc20 18 "transfer" transfer_args JUndefined JUndefined page)
    as (Hcheck & _ & _ & Happrove & Hcreate).
  split; [exact Hcheck|]. split.
  - apply (Happrove probing_wallet (RUint 1000000000000000000000) approve_entry
             "approve(0xtoken,1000000000000000000000)").
    + reflexivity.
    + lia.
    + reflexivity.
    + reflexivity.
    + vm_compute. reflexivity.
  - apply (Hcreate probing_wallet transfer_entry "transfer(0xrecipient,1)");
      reflexivity.
Defined.

(** C6, as stated, fails: on the ropsten scenario [createTransaction],
    asked for a transfer of one base unit, issues an
    [eth_sendTransaction] request. *)
Lemma createTransaction_submits : ~ builders_never_submit.
Proof.
  intros H.
  destruct (H checked_env ropsten_service "0xtoken" token erc20 18%nat "transfer"
              transfer_args JUndefined JUndefined page) as (_ & _ & Hc).
  specialize (Hc [Request (eth_sendTransaction
                    (created_request "0xtoken" "transfer(0xrecipient,1)"
                       JUndefined JUndefined page))]
                eq_refl).
  inversion Hc as [|? ? Hsub _]. apply Hsub. exact I.
Qed.




(** *** The sender before any connection *)

Lemma getAccount_failure_keeps_address env this w w' :
  (exists e, getAccount env this w = (Normal (Rejected e), w')) \/
  (exists e, getAccount env this w = (Throw e, w')) ->
  walletAddress w' = walletAddress w.
Proof.
  destruct (wallet this) as [wl|] eqn:Hw.
  2: { unfold getAccount, wallet_chainId, bind. rewrite Hw.
       intros [(e & [= _ <-])|(e & [= _ <-])]; reflexivity. }
  assert (Hacc : forall chain w0,
    (exists e, request_accounts env this chain w0 = (Normal (Rejected e), w')) \/
    (exists e, request_accounts env this chain w0 = (Throw e, w')) ->
    walletAddress w' = walletAddress w0).
  { intros chain w0 H.
    destruct (request_accounts_eval env this wl Hw chain w0) as (w'' & Heq & _ & Hk).
    rewrite Heq in H.
    destruct H as [(e & [= Hr <-])|(e & [=])]. exact (Hk e Hr). }
  destruct (truthy (chainId wl)) eqn:Ht.
  - rewrite (getAccount_cached env this wl Hw w Ht).
    destruct (strict_eq (chainId wl) (usedChain this)); [apply Hacc|].
    intros [(e & H)|(e & H)]; [|discriminate H]. injection H as _ <-. reflexivity.
  - rewrite (getAccount_probing env this wl Hw w Ht).
    destruct (wallet_request env (trace w) eth_chainId) as [resChain|e0].
    + destruct (strict_eq resChain (usedChain this)).
      * apply (Hacc resChain (log (Request eth_chainId) w)).
      * intros [(e & H)|(e & H)]; [|discriminate H]. injection H as _ <-. reflexivity.
    + intros [(e & H)|(e & H)]; [|discriminate H]. injection H as _ <-. reflexivity.
Qed.

(** The world each builder leaves behind. *)
Lemma approveToken_world env this token abi d wa w :
  snd (approveToken env this token abi d wa w) = log (Call (totalSupply_call (getContract token abi))) w
  \/ exists payload,
       snd (approveToken env this token abi d wa w)
       = log (Request (eth_sendTransaction (approval_request token payload wa w)))
           (log (Call (totalSupply_call (getContract token abi))) w).
Proof.
  destruct (contract_call env (trace w) (totalSupply_call (getContract token abi))) as [raw|e] eqn:Hr.
  2: { left. rewrite (approveToken_read_fails env this _ _ _ _ _ _ Hr). reflexivity. }
  destruct (encodeFunctionCall_cases env (getMethodInterface abi "approve")
              [JString token; JString (calcTransactionAmount (unscale raw d) d)] w)
    as [(e & He & _)|(m & payload & Hm & Hc & _)].
  { left. rewrite (approveToken_encoding_fails env this _ _ _ _ _ _ _ Hr He). reflexivity. }
  destruct (wallet this) as [wl|] eqn:Hw.
  - right. exists payload.
    rewrite (approveToken_encoded env this _ _ _ _ _ _ _ _ _ Hw Hr Hm Hc). reflexivity.
  - left. unfold approveToken, async, try_catch, bind.
    rewrite totalSupply_eval, Hr. simpl.
    rewrite Hm, (encodeFunctionCall_ok _ _ _ _ _ Hc). simpl.
    unfold sendTransaction, request. rewrite Hw. reflexivity.
Qed.

Lemma createTransaction_world env this abi method data token wa value w :
  snd (createTransaction env this abi method data token wa value w) = w
  \/ exists payload,
       snd (createTransaction env this abi method data token wa value w)
       = log (Request (eth_sendTransaction (created_request token payload wa value w))) w.
Proof.
  destruct (encodeFunctionCall_cases env (getMethodInterface abi method) data w)
    as [(e & He & _)|(m & payload & Hm & Hc & _)].
  - left. rewrite (createTransaction_fails env this _ _ _ _ _ _ _ _ He). reflexivity.
  - rewrite (createTransaction_encoded env this _ _ _ _ _ _ _ _ _ Hm Hc).
    destruct (sendTransaction_cases env this (created_request token payload wa value w) w)
      as [(wl & _ & ->)|(e & _ & ->)]; [right; exists payload | left]; reflexivity.
Qed.

Lemma checkTokenAllowance_keeps_address env token contract abi d wa w :
  walletAddress (snd (checkTokenAllowance env token contract abi d wa w))
  = walletAddress w.
Proof.
  rewrite checkTokenAllowance_eval.
  destruct (contract_call env (trace w) _) as [result|e]; [|reflexivity].
  match goal with
  | |- context [contract_call env ?t (totalSupply_call (getContract token abi))] =>
      destruct (contract_call env t (totalSupply_call (getContract token abi))) as [raw|e]
  end; reflexivity.
Qed.

Lemma never_connected_address env this w :
  never_connected env this w -> walletAddress w = JString "".
Proof.
  induction 1 as [storage
                 | w e w' _ IH Hg
                 | w e w' _ IH Hg
                 | w token abi d wa r w' _ IH Ha
                 | w abi method data token wa value r w' _ IH Hc
                 | w token contract abi d wa r w' _ IH Hc].
  - reflexivity.
  - rewrite <- IH. apply (getAccount_failure_keeps_address env this).
    left. exists e. exact Hg.
  - rewrite <- IH. apply (getAccount_failure_keeps_address env this).
    right. exists e. exact Hg.
  - rewrite <- IH.
    destruct (approveToken_world env this token abi d wa w) as [H|(payload & H)];
      rewrite Ha in H; simpl in H; subst w'; reflexivity.
  - rewrite <- IH.
    destruct (createTransaction_world env this abi method data token wa value w)
      as [H|(payload & H)]; rewrite Hc in H; simpl in H; subst w'; reflexivity.
  - rewrite <- IH.
    pose proof (checkTokenAllowance_keeps_address env token contract abi d wa w) as H.
    rewrite Hc in H. exact H.
Qed.

(** C10: as long as no [getAccount] has succeeded, every transaction
    request that [approveToken] or [createTransaction], called without a
    wallet address, submits has the empty string as its [from] field;
    and they do submit one: with a wallet injected, once the total supply
    is read and the call is resolved and encoded (the amount as computed
    for a token of up to 22 decimals), [approveToken] issues that read
    and then the request from the empty address, and once the call is
    resolved and encoded [createTransaction] issues the request from the
    empty address. *)
Theorem sender_empty_before_connecting env this w :
  never_connected env this w ->
  forall token abi d method data value,
    (forall evs tx,
       issued w (snd (approveToken env this token abi d JUndefined w)) evs ->
       In (Request (eth_sendTransaction tx)) evs ->
       from tx = JString "") /\
    (forall evs tx,
       issued w (snd (createTransaction env this abi method data token
                        JUndefined value w)) evs ->
       In (Request (eth_sendTransaction tx)) evs ->
       from tx = JString "") /\
    (forall wl raw m payload,
       wallet this = Some wl ->
       (d <= 22)%nat ->
       contract_call env (trace w) (totalSupply_call (getContract token abi))
       = Fulfilled raw ->
       getMethodInterface abi "approve" = Some m ->
       codec env m [JString token; JString (calcTransactionAmount (unscale raw d) d)]
       = inr payload ->
       issued w (snd (approveToken env this token abi d JUndefined w))
         [Call (totalSupply_call (getContract token abi));
          Request (eth_sendTransaction
                     {| from := JString "";
                        to := token;
                        data := payload;
                        value := None |})]) /\
    (forall wl m payload,
       wallet this = Some wl ->
       getMethodInterface abi method = Some m ->
       codec env m data = inr payload ->
       issued w (snd (createTransaction env this abi method data token
                        JUndefined value w))
         [Request (eth_sendTransaction
                     {| from := JString "";
                        to := token;
                        data := payload;
                        value := Some (if truthy value then value else JString "") |})]).
Proof.
  intros Hnc token abi d method data value.
  pose proof (never_connected_address env this w Hnc) as Haddr.
  unfold issued. split; [|split; [|split]].
  - intros evs tx Hevs Hin.
    destruct (approveToken_world env this token abi d JUndefined w) as [H|(payload & H)];
      rewrite H in Hevs; simpl in Hevs; try rewrite <- app_assoc in Hevs;
      apply app_inv_head in Hevs; subst evs.
    + destruct Hin as [Hin|[]]; discriminate Hin.
    + destruct Hin as [Hin|[Hin|[]]]; [discriminate Hin|].
      injection Hin as <-. simpl. rewrite Haddr. reflexivity.
  - intros evs tx Hevs Hin.
    destruct (createTransaction_world env this abi method data token JUndefined value w)
      as [H|(payload & H)]; rewrite H in Hevs; simpl in Hevs.
    + rewrite <- (app_nil_r (trace w)) in Hevs at 1.
      apply app_inv_head in Hevs. subst evs. destruct Hin.
    + apply app_inv_head in Hevs. subst evs.
      destruct Hin as [Hin|[]]. injection Hin as <-. simpl. rewrite Haddr. reflexivity.
  - intros wl raw m payload Hw _ Hr Hm Hc.
    rewrite (approveToken_encoded env this _ _ _ _ _ _ _ _ _ Hw Hr Hm Hc).
    unfold approval_request. simpl. rewrite Haddr, <- app_assoc. reflexivity.
  - intros wl m payload Hw Hm Hc.
    rewrite (createTransaction_encoded env this _ _ _ _ _ _ _ _ _ Hm Hc).
    unfold sendTransaction. rewrite (request_eval env this wl Hw).
    unfold created_request. simpl. rewrite Haddr. reflexivity.
Qed.

(** The user turns the connection down, so [getAccount] rejects; the
    approval and the transfer made afterwards without a wallet address
    are submitted from the empty address. *)
Lemma sender_empty_before_connecting_witness :
  getAccount declined_env ropsten_service page
  = (Normal (Rejected not_authorized), declined_page) /\
  issued declined_page
    (snd (approveToken declined_env ropsten_service "0xtoken" erc20 18 JUndefined
            declined_page))
    [Call (totalSupply_call token);
     Request (eth_sendTransaction
                {| from := JString "";
                   to := "0xtoken";
                   data := "approve(0xtoken,1000000000000000000000)";
                   value := None |})] /\
  issued declined_page
    (snd (createTransaction declined_env ropsten_service erc20 "transfer" transfer_args
            "0xtoken" JUndefined JUndefined declined_page))
    [Request (eth_sendTransaction
                {| from := JString "";
                   to := "0xtoken";
                   data := "transfer(0xrecipient,1)";
                   value := Some (JString "") |})].
Proof.
  assert (Hget : getAccount declined_env ropsten_service page
                 = (Normal (Rejected not_authorized), declined_page)) by reflexivity.
  assert (Hnc : never_connected declined_env ropsten_service declined_page).
  { apply (nc_rejected declined_env ropsten_service page not_authorized declined_page);
      [apply nc_fresh | exact Hget]. }
  destruct (sender_empty_before_connecting declined_env ropsten_service declined_page Hnc
              "0xtoken" erc20 18%nat "transfer" transfer_args JUndefined)
    as (_ & _ & Happrove & Hcreate).
  split; [exact Hget|]. split.
  - apply (Happrove probing_wallet (RUint 1000000000000000000000) approve_entry
             "approve(0xtoken,1000000000000000000000)").
    + reflexivity.
    + lia.
    + reflexivity.
    + reflexivity.
    + vm_compute. reflexivity.
  - apply (Hcreate probing_wallet transfer_entry "transfer(0xrecipient,1)");
      reflexivity.
Defined.

(** *** The allowance check *)

Lemma uint_string_inj a b : uint_string a = uint_string b -> a = b.
Proof.
  unfold uint_string. intros H.
  assert (Hnn : forall n, N.to_uint n <> Decimal.Nil).
  { intros [|p]; [discriminate | apply DecimalPos.Unsigned.to_uint_nonnil]. }
  apply DecimalN.Unsigned.to_uint_inj.
  pose proof (NilZero.usu _ (Hnn a)) as Ha.
  pose proof (NilZero.usu _ (Hnn b)) as Hb.
  rewrite H in Ha. congruence.
Qed.

Lemma readval_is_zero a : readval_is (RUint a) "0" = N.eqb a 0.
Proof.
  simpl. destruct (N.eqb_spec a 0) as [->|Hne]; [reflexivity|].
  apply String.eqb_neq. intros H. apply Hne.
  apply uint_string_inj. exact H.
Qed.

Lemma BN_minus_positive x y :
  BN_isPositive (BN_minus x y) = BN_leb y x.
Proof.
  destruct x as [a|[|]|], y as [q|[|]|]; simpl; try reflexivity.
  apply eq_true_iff_eq. rewrite !Qle_bool_iff, Qred_correct.
  split; intros H.
  - apply (Qplus_le_l _ _ (- q)). rewrite Qplus_opp_r. exact H.
  - apply (Qplus_le_l _ _ (- q)) in H. rewrite Qplus_opp_r in H. exact H.
Qed.

Lemma allowance_covers_uint a supply :
  allowance_covers (RUint a) supply
  = negb (N.eqb a 0) && BN_leb (BN_of_number supply) (BNfin (inject_Z (Z.of_N a))).
Proof.
  unfold allowance_covers. rewrite readval_is_zero.
  destruct (N.eqb a 0); [reflexivity|]. simpl readval_truthy.
  cbn [BN_of_readval negb andb]. apply BN_minus_positive.
Qed.

Lemma allowance_covers_falsy v supply :
  readval_truthy v = false -> allowance_covers v supply = false.
Proof.
  unfold allowance_covers.
  destruct v; try discriminate; intros _; reflexivity.
Qed.

Lemma checkTokenAllowance_fulfilled env token contract abi d wa w result raw :
  allowance_read env token contract wa w = Fulfilled result ->
  supply_read env token contract abi wa w = Fulfilled raw ->
  fst (checkTokenAllowance env token contract abi d wa w)
  = Normal (Fulfilled (allowance_covers result (unscale raw d))).
Proof.
  unfold allowance_read, supply_read. intros Ha Hs.
  rewrite checkTokenAllowance_eval. rewrite Ha. simpl. rewrite Hs. reflexivity.
Qed.

(** [checkTokenAllowance] always resolves with a boolean. *)
Lemma checkTokenAllowance_resolves env token contract abi d wa w :
  exists b, fst (checkTokenAllowance env token contract abi d wa w) = Normal (Fulfilled b).
Proof.
  rewrite checkTokenAllowance_eval.
  destruct (contract_call env (trace w) _) as [result|e]; [|eexists; reflexivity].
  match goal with
  | |- context [contract_call env ?t (totalSupply_call (getContract token abi))] =>
      destruct (contract_call env t (totalSupply_call (getContract token abi))) as [raw|e]
  end; eexists; reflexivity.
Qed.

(** C8: [checkTokenAllowance] resolves with [false], and so neither
    throws nor rejects, whenever the allowance read or the total-supply
    read fails, and whenever the allowance read returns ["0"] or a falsy
    value. *)
Theorem checkTokenAllowance_fails_closed env token contract abi d wa w :
  (exists e, allowance_read env token contract wa w = Rejected e) \/
  (exists e, supply_read env token contract abi wa w = Rejected e) \/
  allowance_read env token contract wa w = Fulfilled (RUint 0) \/
  (exists v, allowance_read env token contract wa w = Fulfilled v /\
             readval_truthy v = false) ->
  fst (checkTokenAllowance env token contract abi d wa w) = Normal (Fulfilled false).
Proof.
  unfold allowance_read, supply_read. intros H.
  rewrite checkTokenAllowance_eval.
  destruct (contract_call env (trace w) _) as [result|e0] eqn:Ha; [|reflexivity].
  simpl.
  match goal with
  | |- context [contract_call env ?t (totalSupply_call (getContract token abi))] =>
      destruct (contract_call env t (totalSupply_call (getContract token abi))) as [raw|e1] eqn:Hs
  end; [|reflexivity].
  simpl. destruct H as [(e & H)|[(e & H)|[H|(v & H & Hv)]]]; try discriminate H.
  - injection H as ->. reflexivity.
  - injection H as ->. rewrite (allowance_covers_falsy _ _ Hv). reflexivity.
Qed.

(** Nothing approved yet: the check answers [false]. *)
Lemma checkTokenAllowance_fails_closed_witness :
  fst (checkTokenAllowance no_allowance_env "0xtoken" token erc20 18 JUndefined page)
  = Normal (Fulfilled false).
Proof.
  apply checkTokenAllowance_fails_closed. right. right. left. reflexivity.
Defined.

(** C2, as amended: with an allowance [a] and a total supply that
    [totalSupply] turns into the amount [s] (the supply read, divided by
    ten to the decimals, as a number), [checkTokenAllowance] returns
    [true] if and only if [a] is not zero and [a] is at least [s]; in
    particular a non-zero [a] equal to [s] gives [true]. *)
Theorem checkTokenAllowance_decision env token contract abi d wa w a raw s :
  allowance_read env token contract wa w = Fulfilled (RUint a) ->
  supply_read env token contract abi wa w = Fulfilled raw ->
  BN_of_number (unscale raw d) = BNfin s ->
  (fst (checkTokenAllowance env token contract abi d wa w) = Normal (Fulfilled true)
   <-> a <> 0%N /\ (s <= inject_Z (Z.of_N a))%Q) /\
  (a <> 0%N -> s = inject_Z (Z.of_N a) ->
   fst (checkTokenAllowance env token contract abi d wa w) = Normal (Fulfilled true)).
Proof.
  intros Ha Hs Hn.
  assert (Hiff : fst (checkTokenAllowance env token contract abi d wa w)
                 = Normal (Fulfilled true)
                 <-> a <> 0%N /\ (s <= inject_Z (Z.of_N a))%Q).
  { rewrite (checkTokenAllowance_fulfilled _ _ _ _ _ _ _ _ _ Ha Hs).
    rewrite allowance_covers_uint, Hn. simpl BN_leb.
    split.
    - intros [= H]. apply andb_prop in H as [H1 H2]. split.
      + intros ->. discriminate H1.
      + apply Qle_bool_iff. exact H2.
    - intros [H1 H2]. apply N.eqb_neq in H1. apply Qle_bool_iff in H2.
      rewrite H1, H2. reflexivity. }
  split; [exact Hiff|].
  intros Hne ->. apply Hiff. split; [exact Hne | apply Qle_refl].
Qed.

(** An allowance equal to the supply, on a token without decimals. *)
Lemma checkTokenAllowance_decision_witness :
  fst (checkTokenAllowance exact_allowance_env "0xtoken" token erc20 0 JUndefined page)
  = Normal (Fulfilled true).
Proof.
  apply (checkTokenAllowance_decision exact_allowance_env "0xtoken" token erc20 0
           JUndefined page 5 (RUint 5) (inject_Z 5) eq_refl eq_refl eq_refl);
    [discriminate | reflexivity].
Defined.

(** C2, as stated, fails: an allowance of 5 against a supply of 5 (no
    decimals) is answered [true], though 5 does not exceed 5. *)
Lemma checkTokenAllowance_not_strict : ~ allowance_check_is_strict.
Proof.
  intros H.
  specialize (H exact_allowance_env "0xtoken" token erc20 0%nat JUndefined page
                5%N (RUint 5) (inject_Z 5) eq_refl eq_refl eq_refl).
  apply (Qlt_irrefl (inject_Z 5)). apply H. reflexivity.
Qed.

(** *** Chain changes *)

Lemma on_chainChanged_same newChain w :
  js_String (persisted_chainId w) = js_String newChain ->
  on_chainChanged newChain w = (Normal tt, w).
Proof.
  intros H. unfold on_chainChanged, bind, localStorage_getItem.
  fold (persisted_chainId w). rewrite H, String.eqb_refl. reflexivity.
Qed.

Lemma on_chainChanged_different newChain w :
  js_String (persisted_chainId w) <> js_String newChain ->
  on_chainChanged newChain w =
  (Normal tt,
   {| walletAddress := walletAddress w;
      localStorage := <["chainId" := js_String newChain]> (localStorage w);
      trace := trace w ++ [SetItem "chainId" (js_String newChain); Reload] |}).
Proof.
  intros H. unfold on_chainChanged, bind, localStorage_getItem.
  fold (persisted_chainId w). apply String.eqb_neq in H. rewrite H. simpl.
  unfold localStorage_setItem, location_reload, log. simpl.
  rewrite <- app_assoc. reflexivity.
Qed.

(** For a persisted id and a string event value the comparison is plain
    inequality of the two strings; an absent id reads as ["null"]. *)
Lemma chain_ids_differ w p c :
  localStorage w !! "chainId" = Some p ->
  (js_String (persisted_chainId w) <> js_String (JString c) <-> p <> c).
Proof. unfold persisted_chainId. intros ->. reflexivity. Qed.

(** C9: a [chainChanged] event whose value differs from the persisted
    chain id (both read as strings, which is how the handler compares
    them) makes the handler persist the new value and reload once;
    firing the same value again changes nothing: no write and no second
    reload. *)
Theorem chainChanged_invalidates_once newChain w :
  js_String (persisted_chainId w) <> js_String newChain ->
  fst (on_chainChanged newChain w) = Normal tt /\
  localStorage (snd (on_chainChanged newChain w)) !! "chainId"
  = Some (js_String newChain) /\
  issued w (snd (on_chainChanged newChain w))
    [SetItem "chainId" (js_String newChain); Reload] /\
  on_chainChanged newChain (snd (on_chainChanged newChain w))
  = (Normal tt, snd (on_chainChanged newChain w)).
Proof.
  intros H. rewrite (on_chainChanged_different _ _ H). simpl.
  repeat split.
  - apply lookup_insert_eq.
  - apply on_chainChanged_same. unfold persisted_chainId. simpl.
    rewrite lookup_insert_eq. reflexivity.
Qed.

(** A page that has persisted ["0x1"] sees the wallet move to ["0x3"]. *)
Lemma chainChanged_invalidates_once_witness :
  issued (fresh {["chainId" := "0x1"]})
    (snd (on_chainChanged (JString "0x3") (fresh {["chainId" := "0x1"]})))
    [SetItem "chainId" "0x3"; Reload] /\
  on_chainChanged (JString "0x3")
    (snd (on_chainChanged (JString "0x3") (fresh {["chainId" := "0x1"]})))
  = (Normal tt, snd (on_chainChanged (JString "0x3") (fresh {["chainId" := "0x1"]}))).
Proof.
  assert (H : js_String (persisted_chainId (fresh {["chainId" := "0x1"]}))
              <> js_String (JString "0x3")).
  { apply (chain_ids_differ _ "0x1" "0x3"); [apply lookup_singleton_eq | discriminate]. }
  destruct (chainChanged_invalidates_once (JString "0x3")
              (fresh {["chainId" := "0x1"]}) H) as (_ & _ & Hi & Hagain).
  split; [exact Hi | exact Hagain].
Defined.

(** *** Amount conversion *)

(** The number model on familiar values: 0.1 is the binary64 value
    3602879701896397 / 2^55 and prints back as 0.1; seventeen digits are
    cut to the shortest numeral that reads back; the binary64 value of
    10^23 lies below it and still prints as 1e+23; 2 / 3 is kept to
    twenty decimal places, the last one rounded up. *)
Example number_one_tenth :
  ToNumber (1 # 10) = Num (3602879701896397 # 36028797018963968)
  /\ BN_of_number (ToNumber (1 # 10)) = BNfin (1 # 10).
Proof. split; vm_compute; reflexivity. Qed.

Example number_shortest_numeral :
  BN_toString10 (BN_of_number (ToNumber (123456789012345678 # 100)))
  = "1234567890123456.8".
Proof. vm_compute. reflexivity. Qed.

Example number_ten_to_23 :
  Math_pow10 23 = Num (inject_Z 99999999999999991611392)
  /\ BN_of_number (Math_pow10 23) = BNfin (inject_Z (10 ^ 23)).
Proof. split; vm_compute; reflexivity. Qed.

Example bignumber_two_thirds :
  BN_toString10 (BN_dividedBy (BN_of_Z 2) (BN_of_Z 3)) = "0.66666666666666666667".
Proof. vm_compute. reflexivity. Qed.

Lemma Qred_inject_Z z : Qred (inject_Z z) = inject_Z z.
Proof.
  unfold Qred, inject_Z. cbn [Qnum Qden].
  pose proof (Z.ggcd_gcd z 1) as Hg.
  pose proof (Z.ggcd_correct_divisors z 1) as Hd.
  destruct (Z.ggcd z 1) as (g & aa & bb). cbn [fst snd] in *.
  rewrite Z.gcd_1_r in Hg. subst g. destruct Hd as [Ha Hb].
  rewrite Z.mul_1_l in Ha, Hb. subst aa bb. reflexivity.
Qed.

Lemma Qfloor_half k : Qfloor (inject_Z k + (1 # 2)) = k.
Proof.
  unfold Qfloor, Qplus, inject_Z. cbn [Qnum Qden].
  change (Z.pos (1 * 2)) with 2. 
  replace (k * 2 + 1 * 1) with (1 + k * 2) by ring.
  rewrite Z.div_add by lia. reflexivity.
Qed.

Lemma round_half_up_comp q q' : (q == q')%Q -> round_half_up q = round_half_up q'.
Proof.
  intros H. unfold round_half_up.
  assert (Hb : Qle_bool 0 q = Qle_bool 0 q').
  { apply eq_true_iff_eq. rewrite !Qle_bool_iff, H. reflexivity. }
  rewrite Hb. destruct (Qle_bool 0 q').
  - apply Qfloor_comp. rewrite H. reflexivity.
  - f_equal. apply Qfloor_comp. rewrite H. reflexivity.
Qed.

Lemma round_half_up_Z k : round_half_up (inject_Z k) = k.
Proof.
  unfold round_half_up. destruct (Qle_bool 0 (inject_Z k)).
  - apply Qfloor_half.
  - change (- inject_Z k)%Q with (inject_Z (- k)). rewrite Qfloor_half. lia.
Qed.

Lemma pow10_pos (n : nat) : 0 < 10 ^ Z.of_nat n.
Proof. apply Z.pow_pos_nonneg; lia. Qed.

Lemma round_dp_exact dp q k :
  (q * inject_Z (10 ^ Z.of_nat dp) == inject_Z k)%Q -> round_dp dp q = Qred q.
Proof.
  intros H. unfold round_dp.
  rewrite (round_half_up_comp _ _ H), round_half_up_Z.
  apply Qred_complete. rewrite Qmake_Qdiv.
  rewrite Z2Pos.id by apply pow10_pos. rewrite <- H.
  field. intros Hz.
  pose proof (pow10_pos dp) as Hp.
  assert (Hq : (0 < inject_Z (10 ^ Z.of_nat dp))%Q).
  { rewrite <- (Zlt_Qlt 0). exact Hp. }
  rewrite Hz in Hq. apply (Qlt_irrefl 0). exact Hq.
Qed.

Lemma round_dp_Z dp z : round_dp dp (inject_Z z) = inject_Z z.
Proof.
  rewrite (round_dp_exact dp _ (z * 10 ^ Z.of_nat dp)).
  - apply Qred_inject_Z.
  - rewrite inject_Z_mult. reflexivity.
Qed.

Lemma human_eq n d :
  (human n d == inject_Z (Z.of_N n) / inject_Z (10 ^ Z.of_nat d))%Q.
Proof.
  unfold human. rewrite Qred_correct, Qmake_Qdiv.
  rewrite Z2Pos.id by apply pow10_pos. reflexivity.
Qed.

Lemma inject_pow10_nonzero d : ~ (inject_Z (10 ^ Z.of_nat d) == 0)%Q.
Proof.
  intros Hz. pose proof (pow10_pos d) as Hp.
  assert (Hq : (0 < inject_Z (10 ^ Z.of_nat d))%Q).
  { rewrite <- (Zlt_Qlt 0). exact Hp. }
  rewrite Hz in Hq. apply (Qlt_irrefl 0). exact Hq.
Qed.

Lemma human_round n d : (d <= 20)%nat -> round_dp DECIMAL_PLACES (human n d) = human n d.
Proof.
  intros Hd. unfold DECIMAL_PLACES.
  rewrite (round_dp_exact 20 _ (Z.of_N n * 10 ^ Z.of_nat (20 - d))).
  - unfold human. apply Qred_involutive.
  - rewrite human_eq, inject_Z_mult.
    replace (10 ^ Z.of_nat 20) with (10 ^ Z.of_nat (20 - d) * 10 ^ Z.of_nat d).
    + rewrite inject_Z_mult. field. apply inject_pow10_nonzero.
    + rewrite <- Z.pow_add_r by lia. f_equal. lia.
Qed.

Lemma human_scaled n d :
  Qred (human n d * inject_Z (10 ^ Z.of_nat d)) = inject_Z (Z.of_N n).
Proof.
  etransitivity; [apply Qred_complete | apply Qred_inject_Z].
  rewrite human_eq. field. apply inject_pow10_nonzero.
Qed.

Lemma BN_ten_pow d :
  BN_pow (BN_of_Z 10) d = BNfin (inject_Z (10 ^ Z.of_nat d)).
Proof.
  unfold BN_pow, BN_of_Z. f_equal.
  etransitivity; [apply Qred_complete | apply Qred_inject_Z].
  symmetry. apply Zpower_Qpower. lia.
Qed.

Lemma Math_pow10_exact d :
  (d <= 20)%nat -> BN_of_number (Math_pow10 d) = BNfin (inject_Z (10 ^ Z.of_nat d)).
Proof.
  intros Hd.
  do 21 (destruct d as [|d]; [vm_compute; reflexivity|]).
  lia.
Qed.

Lemma unscale_uint n d :
  (d <= 20)%nat -> unscale (RUint n) d = ToNumber (human n d).
Proof.
  intros Hd. unfold unscale. rewrite BN_ten_pow. cbn [BN_of_readval BN_dividedBy].
  assert (Hz : Qis_zero (inject_Z (10 ^ Z.of_nat d)) = false).
  { unfold Qis_zero, inject_Z. cbn [Qnum]. pose proof (pow10_pos d). lia. }
  rewrite Hz. cbn [BN_toNumber10].
  assert (Hq : round_dp DECIMAL_PLACES
                 (inject_Z (Z.of_N n) / inject_Z (10 ^ Z.of_nat d))
               = human n d).
  { unfold DECIMAL_PLACES.
    rewrite (round_dp_exact 20 _ (Z.of_N n * 10 ^ Z.of_nat (20 - d))).
    - unfold human. apply Qred_complete. rewrite Qmake_Qdiv.
      rewrite Z2Pos.id by apply pow10_pos. reflexivity.
    - rewrite inject_Z_mult.
      replace (10 ^ Z.of_nat 20) with (10 ^ Z.of_nat (20 - d) * 10 ^ Z.of_nat d).
      + rewrite inject_Z_mult. field. apply inject_pow10_nonzero.
      + rewrite <- Z.pow_add_r by lia. f_equal. lia. }
  rewrite Hq, (human_round n d Hd). reflexivity.
Qed.

Lemma frac_digits_zero : strip_trailing_zeros (frac_digits 20 0) = [].
Proof. vm_compute. reflexivity. Qed.

Lemma toFixedPoint_uint n :
  toFixedPoint DECIMAL_PLACES (inject_Z (Z.of_N n)) = uint_string n.
Proof.
  unfold toFixedPoint, DECIMAL_PLACES.
  assert (Ha : Qabs (inject_Z (Z.of_N n)) = inject_Z (Z.of_N n)).
  { unfold Qabs, inject_Z. rewrite Z.abs_eq by lia. reflexivity. }
  rewrite Ha, Qfloor_Z.
  assert (Hf : Qfloor ((inject_Z (Z.of_N n) - inject_Z (Z.of_N n))
                       * inject_Z (10 ^ Z.of_nat 20)) = 0).
  { rewrite <- (Qfloor_Z 0). apply Qfloor_comp. ring. }
  rewrite Hf, frac_digits_zero.
  assert (Hn : Qis_neg (inject_Z (Z.of_N n)) = false).
  { unfold Qis_neg, inject_Z. cbn [Qnum]. apply Z.ltb_ge. lia. }
  rewrite Hn. unfold Z_to_string, uint_string. destruct n; reflexivity.
Qed.

Lemma calcTransactionAmount_human n d h :
  (d <= 20)%nat ->
  BN_of_number h = BNfin (human n d) ->
  calcTransactionAmount h d = uint_string n.
Proof.
  intros Hd Hh. unfold calcTransactionAmount.
  rewrite Hh, (Math_pow10_exact d Hd). cbn [BN_times].
  rewrite human_scaled. cbn [BN_toString10].
  rewrite round_dp_Z. apply toFixedPoint_uint.
Qed.

(** C1, as amended: for every decimals count [d] up to 20 (the decimal
    places bignumber.js keeps in a quotient) and every base-unit integer
    [n] representable at [d] decimals, unscaling [n] and re-scaling the
    result yields exactly the numeral of [n]; symmetrically the human
    amount of [n], as a number, scales to [n], and [n] unscales back to
    it. *)
Theorem amounts_round_trip_up_to_20_decimals d n :
  (d <= 20)%nat ->
  representable n d ->
  calcTransactionAmount (unscale (RUint n) d) d = uint_string n /\
  (calcTransactionAmount (ToNumber (human n d)) d = uint_string n /\
   unscale (RUint n) d = ToNumber (human n d)).
Proof.
  intros Hd Hrep. rewrite (unscale_uint n d Hd).
  repeat split; apply (calcTransactionAmount_human n d _ Hd Hrep).
Qed.

(** 1000 tokens at 18 decimals. *)
Lemma amounts_round_trip_up_to_20_decimals_witness :
  calcTransactionAmount (unscale (RUint 1000000000000000000000) 18) 18
  = "1000000000000000000000".
Proof.
  apply (amounts_round_trip_up_to_20_decimals 18 1000000000000000000000).
  - lia.
  - vm_compute. reflexivity.
Defined.

(** C1, as stated, fails: one base unit at 21 decimals is representable
    (1e-21 prints back as itself), but the quotient is rounded to 20
    decimal places, so it unscales to 0 and re-scales to ["0"]. *)
Lemma amounts_lost_beyond_20_decimals : ~ amounts_round_trip.
Proof.
  intros H.
  assert (Hrep : representable 1 21) by (vm_compute; reflexivity).
  destruct (H 21%nat 1%N Hrep) as (Habs & _).
  vm_compute in Habs. discriminate Habs.
Qed.

(** Representability matters: one base unit above 1000 tokens at 18
    decimals is lost in the native number. *)
Example precision_lost_in_native_number :
  calcTransactionAmount (unscale (RUint 1000000000000000000001) 18) 18
  = "1000000000000000000000".
Proof. vm_compute. reflexivity. Qed.

(** *** Further properties of [getAccount] *)

Import Cover Cases.

Section ConnectMore.

Variable env : Env.
Variable this : MetamaskService.
Variable wl : Wallet.
Hypothesis injected : wallet this = Some wl.

(** The account request, with the world it leaves. *)
Lemma request_accounts_world chain w :
  request_accounts env this chain w =
  match wallet_request env (trace w) eth_requestAccounts with
  | Fulfilled account =>
      match index0 account with
      | Some a =>
          (Normal (Fulfilled {| address := a; network := chain |}),
           {| walletAddress := a;
              localStorage := localStorage w;
              trace := trace w ++ [Request eth_requestAccounts] |})
      | None => (Normal (Rejected not_authorized), log (Request eth_requestAccounts) w)
      end
  | Rejected _ => (Normal (Rejected not_authorized), log (Request eth_requestAccounts) w)
  end.
Proof using injected.
  unfold request_accounts, bind. rewrite (request_eval env this wl injected).
  destruct (wallet_request env (trace w) eth_requestAccounts) as [account|e];
    [|reflexivity].
  destruct (index0 account); reflexivity.
Qed.

(** [getAccount] in terms of the chain id the wallet reports. *)
Lemma getAccount_reported w c :
  reports env this w c ->
  getAccount env this w =
  if strict_eq c (usedChain this)
  then request_accounts env this c (after_probe this w)
  else (Normal (Rejected (JErrorMsg
          ("Please choose " ++ usedNetwork this ++ " network in metamask wallet"
           ++ (if truthy (chainId wl) then "." else "")))),
        after_probe this w).
Proof using injected.
  intros (wl' & Hw & Hc). rewrite injected in Hw. injection Hw as <-.
  unfold after_probe. rewrite injected.
  destruct Hc as [[Ht ->]|[Hf Hr]].
  - rewrite (getAccount_cached env this wl injected w Ht), Ht. reflexivity.
  - rewrite (getAccount_probing env this wl injected w Hf), Hr, Hf.
    destruct (strict_eq c (usedChain this)); reflexivity.
Qed.

End ConnectMore.

Lemma reports_wallet env this w c :
  reports env this w c -> exists wl, wallet this = Some wl.
Proof. intros (wl & Hw & _). exists wl. exact Hw. Qed.

Lemma trace_after_probe this w :
  exists before,
    (before = [] \/ before = [Request eth_chainId]) /\
    trace (after_probe this w) = (trace w ++ before)%list /\
    same_page w (after_probe this w).
Proof.
  unfold after_probe, same_page. destruct (wallet this) as [wl|].
  - destruct (truthy (chainId wl)).
    + exists []. rewrite app_nil_r. repeat split. left; reflexivity.
    + exists [Request eth_chainId]. repeat split. right; reflexivity.
  - exists []. rewrite app_nil_r. repeat split. left; reflexivity.
Qed.

Lemma getAccount_strict_mismatch env this w c :
  reports env this w c ->
  strict_eq c (usedChain this) = false ->
  rejects_wrong_network env this w (usedNetwork this).
Proof.
  intros Hrep Hne. destruct (reports_wallet _ _ _ _ Hrep) as (wl & Hw).
  unfold rejects_wrong_network.
  rewrite (getAccount_reported env this wl Hw w c Hrep), Hne.
  destruct (trace_after_probe this w) as (before & Hb & Ht & Ha & _).
  eexists _, (after_probe this w), before. repeat split; trivial.
  - unfold WrongNetwork. destruct (truthy (chainId wl)); [right | left]; reflexivity.
  - destruct Hb as [->| ->]; [intros [] | intros [H|[]]; discriminate H].
Qed.

Lemma getAccount_strict_match env this w c :
  reports env this w c ->
  strict_eq c (usedChain this) = true ->
  proceeds_to_accounts env this w c.
Proof.
  intros Hrep He. destruct (reports_wallet _ _ _ _ Hrep) as (wl & Hw).
  unfold proceeds_to_accounts.
  rewrite (getAccount_reported env this wl Hw w c Hrep), He.
  destruct (trace_after_probe this w) as (before & Hb & Ht & _).
  destruct (request_accounts_eval env this wl Hw c (after_probe this w))
    as (w' & Heq & Hi & _).
  exists w', before. split; [exact Hb|]. split.
  - unfold issued in Hi. rewrite Hi, Ht, <- app_assoc. reflexivity.
  - rewrite Heq, Ht. reflexivity.
Qed.

(** X1: when the wallet reports the expected chain and grants the
    accounts, [getAccount] resolves with the first account and the
    reported chain id, records that account as [walletAddress] and
    leaves [localStorage] alone. *)
Theorem getAccount_connects env this w c account a :
  reports env this w c ->
  strict_eq c (usedChain this) = true ->
  accounts_answer env this w = Fulfilled account ->
  index0 account = Some a ->
  fst (getAccount env this w) = Normal (Fulfilled {| address := a; network := c |}) /\
  walletAddress (snd (getAccount env this w)) = a /\
  localStorage (snd (getAccount env this w)) = localStorage w.
Proof.
  intros Hrep He Hans Ha. destruct (reports_wallet _ _ _ _ Hrep) as (wl & Hw).
  rewrite (getAccount_reported env this wl Hw w c Hrep), He.
  rewrite (request_accounts_world env this wl Hw). unfold accounts_answer in Hans.
  rewrite Hans, Ha. simpl. repeat split.
  destruct (trace_after_probe this w) as (_ & _ & _ & _ & Hl). exact Hl.
Qed.

(** A ropsten wallet that answers the probe and grants one account. *)
Lemma getAccount_connects_witness :
  fst (getAccount ropsten_env ropsten_service page)
  = Normal (Fulfilled {| address := JString "0xabc"; network := JString "0x3" |}) /\
  walletAddress (snd (getAccount ropsten_env ropsten_service page)) = JString "0xabc".
Proof.
  assert (Hrep : reports ropsten_env ropsten_service page (JString "0x3")).
  { exists probing_wallet. split; [reflexivity|]. right. split; reflexivity. }
  destruct (getAccount_connects ropsten_env ropsten_service page (JString "0x3")
              (JArray [JString "0xabc"]) (JString "0xabc")
              Hrep eq_refl eq_refl eq_refl) as (H1 & H2 & _).
  split; [exact H1 | exact H2].
Defined.

(** X2: with a wallet injected, [getAccount] rejects with
    [{ errorMsg: 'Not authorized' }], leaving address and storage as they
    were, when the chain id query is rejected, and, on the expected
    chain, when the account request is rejected or answers with
    [undefined] or [null]. *)
Theorem getAccount_not_authorized env this wl w :
  wallet this = Some wl ->
  (truthy (chainId wl) = false /\
   exists e, wallet_request env (trace w) eth_chainId = Rejected e)
  \/ (exists c,
        reports env this w c /\ strict_eq c (usedChain this) = true /\
        ((exists e, accounts_answer env this w = Rejected e) \/
         (exists account, accounts_answer env this w = Fulfilled account /\
                          index0 account = None))) ->
  fst (getAccount env this w) = Normal (Rejected not_authorized) /\
  same_page w (snd (getAccount env this w)).
Proof.
  intros Hw [[Hf (e & Hr)]|(c & Hrep & He & Hans)].
  - rewrite (getAccount_probing env this wl Hw w Hf), Hr. split; [reflexivity|].
    split; reflexivity.
  - rewrite (getAccount_reported env this wl Hw w c Hrep), He.
    rewrite (request_accounts_world env this wl Hw). unfold accounts_answer in Hans.
    destruct (trace_after_probe this w) as (_ & _ & _ & Hp).
    destruct Hans as [(e & ->)|(account & -> & ->)]; (split; [reflexivity | exact Hp]).
Qed.

(** The user of the ropsten wallet turns the connection down. *)
Lemma getAccount_not_authorized_witness :
  fst (getAccount refusing_env ropsten_service page) = Normal (Rejected not_authorized).
Proof.
  apply (getAccount_not_authorized refusing_env ropsten_service probing_wallet page eq_refl).
  right. exists (JString "0x3"). split; [|split; [reflexivity|]].
  - exists probing_wallet. split; [reflexivity|]. right. split; reflexivity.
  - left. eexists. reflexivity.
Defined.

(** Every rejection of [getAccount] with a wallet injected is one of
    its own three. *)
Lemma getAccount_settles_aux env this wl w :
  wallet this = Some wl ->
  exists s,
    fst (getAccount env this w) = Normal s /\
    (forall e, s = Rejected e -> connect_error this e).
Proof.
  intros Hw. unfold connect_error.
  assert (Hacc : forall chain w0,
    exists s, fst (request_accounts env this chain w0) = Normal s /\
              (forall e, s = Rejected e ->
                         e = not_authorized \/ WrongNetwork (usedNetwork this) e)).
  { intros chain w0. rewrite (request_accounts_world env this wl Hw).
    destruct (wallet_request env (trace w0) eth_requestAccounts) as [account|e0];
      [destruct (index0 account) as [a|]|]; simpl; eexists; (split; [reflexivity|]);
      intros e [= <-]; left; reflexivity. }
  destruct (truthy (chainId wl)) eqn:Ht.
  - rewrite (getAccount_cached env this wl Hw w Ht).
    destruct (strict_eq (chainId wl) (usedChain this)); [apply Hacc|].
    eexists. split; [reflexivity|]. intros e [= <-]. right. right. reflexivity.
  - rewrite (getAccount_probing env this wl Hw w Ht).
    destruct (wallet_request env (trace w) eth_chainId) as [resChain|e0].
    + destruct (strict_eq resChain (usedChain this)); [apply Hacc|].
      eexists. split; [reflexivity|]. intros e [= <-]. right. left. reflexivity.
    + eexists. split; [reflexivity|]. intros e [= <-]. left. reflexivity.
Qed.

(** X3: with a wallet injected, [getAccount] never throws: it returns a
    promise that settles after at most the chain id query and the
    account request, never touches [localStorage], and rejects only
    with ['Not authorized'] or the wrong-network message, in which case
    [walletAddress] is unchanged. *)
Theorem getAccount_settles env this wl w :
  wallet this = Some wl ->
  exists s evs,
    fst (getAccount env this w) = Normal s /\
    issued w (snd (getAccount env this w)) evs /\
    connect_requests evs /\
    localStorage (snd (getAccount env this w)) = localStorage w /\
    (forall e, s = Rejected e ->
               connect_error this e /\
               walletAddress (snd (getAccount env this w)) = walletAddress w).
Proof.
  intros Hw. unfold issued, connect_requests, connect_error.
  assert (Hacc : forall chain w0 evs0,
    trace w0 = (trace w ++ evs0)%list -> (evs0 = [] \/ evs0 = [Request eth_chainId]) ->
    same_page w w0 ->
    exists s evs,
      fst (request_accounts env this chain w0) = Normal s /\
      trace (snd (request_accounts env this chain w0)) = (trace w ++ evs)%list /\
      (evs = [] \/ evs = [Request eth_chainId] \/ evs = [Request eth_requestAccounts]
       \/ evs = [Request eth_chainId; Request eth_requestAccounts]) /\
      localStorage (snd (request_accounts env this chain w0)) = localStorage w /\
      (forall e, s = Rejected e ->
         (e = not_authorized \/ WrongNetwork (usedNetwork this) e) /\
         walletAddress (snd (request_accounts env this chain w0)) = walletAddress w)).
  { intros chain w0 evs0 Ht Hevs [Ha Hl].
    rewrite (request_accounts_world env this wl Hw).
    destruct (wallet_request env (trace w0) eth_requestAccounts) as [account|e0];
      [destruct (index0 account) as [a|]|];
      simpl; rewrite Ht, <- app_assoc;
      eexists _, _; (split; [reflexivity|]); (split; [reflexivity|]);
      (split; [destruct Hevs as [->| ->]; simpl; tauto|]); (split; [exact Hl|]);
      intros e [= <-]; (split; [left; reflexivity | exact Ha]). }
  destruct (truthy (chainId wl)) eqn:Ht.
  - rewrite (getAccount_cached env this wl Hw w Ht).
    destruct (strict_eq (chainId wl) (usedChain this)).
    + apply (Hacc _ w []); [symmetry; apply app_nil_r | left; reflexivity | split; reflexivity].
    + eexists _, []. simpl. rewrite app_nil_r. repeat split; [tauto|].
      injection H as <-. right. right. reflexivity.
  - rewrite (getAccount_probing env this wl Hw w Ht).
    destruct (wallet_request env (trace w) eth_chainId) as [resChain|e0].
    + destruct (strict_eq resChain (usedChain this)).
      * apply (Hacc _ (log (Request eth_chainId) w) [Request eth_chainId]);
          [reflexivity | right; reflexivity | split; reflexivity].
      * eexists _, [Request eth_chainId]. simpl. repeat split; [tauto|].
        injection H as <-. right. left. reflexivity.
    + eexists _, [Request eth_chainId]. simpl. repeat split; [tauto|].
      injection H as <-. left. reflexivity.
Qed.

(** On the wrong chain the production session is told so. *)
Lemma getAccount_settles_witness :
  exists s evs,
    fst (getAccount ropsten_env production_service page) = Normal s /\
    issued page (snd (getAccount ropsten_env production_service page)) evs /\
    connect_requests evs.
Proof.
  destruct (getAccount_settles ropsten_env production_service
              {| chainId := JString "0x3" |} page eq_refl)
    as (s & evs & H1 & H2 & H3 & _).
  exists s, evs. repeat split; assumption.
Defined.

(** X4: a wallet that has its chain id cached is never asked for it,
    and one that has not is asked for it before anything else. *)
Theorem getAccount_probes_only_without_cache env this wl w evs :
  wallet this = Some wl ->
  issued w (snd (getAccount env this w)) evs ->
  (truthy (chainId wl) = true -> ~ In (Request eth_chainId) evs) /\
  (truthy (chainId wl) = false -> exists rest, evs = Request eth_chainId :: rest).
Proof.
  intros Hw Hi. unfold issued in Hi.
  assert (Hacc : forall chain w0,
    trace (snd (request_accounts env this chain w0))
    = (trace w0 ++ [Request eth_requestAccounts])%list).
  { intros chain w0. rewrite (request_accounts_world env this wl Hw).
    destruct (wallet_request env (trace w0) eth_requestAccounts) as [account|e];
      [destruct (index0 account)|]; reflexivity. }
  split; intros Ht.
  - rewrite (getAccount_cached env this wl Hw w Ht) in Hi.
    destruct (strict_eq (chainId wl) (usedChain this)).
    + rewrite Hacc in Hi. apply app_inv_head in Hi. subst evs.
      intros [H|[]]. discriminate H.
    + simpl in Hi. rewrite <- (app_nil_r (trace w)) in Hi at 1.
      apply app_inv_head in Hi. subst evs. intros [].
  - rewrite (getAccount_probing env this wl Hw w Ht) in Hi.
    destruct (wallet_request env (trace w) eth_chainId) as [resChain|e].
    + destruct (strict_eq resChain (usedChain this)).
      * rewrite Hacc in Hi. simpl in Hi. rewrite <- app_assoc in Hi.
        apply app_inv_head in Hi. subst evs. eexists. reflexivity.
      * simpl in Hi. apply app_inv_head in Hi. subst evs. eexists. reflexivity.
    + simpl in Hi. apply app_inv_head in Hi. subst evs. eexists. reflexivity.
Qed.

(** The probing wallet of the ropsten scenario is asked first. *)
Lemma getAccount_probes_only_without_cache_witness :
  exists rest,
    [Request eth_chainId; Request eth_requestAccounts] = Request eth_chainId :: rest.
Proof.
  apply (getAccount_probes_only_without_cache ropsten_env ropsten_service
           probing_wallet page [Request eth_chainId; Request eth_requestAccounts]
           eq_refl eq_refl).
  reflexivity.
Defined.

Lemma usedChain_expected this n :
  expected_network this = Some n ->
  usedChain this = JString (networks n) /\ usedNetwork this = network_name n.
Proof.
  unfold expected_network, usedChain, usedNetwork.
  destruct (isProduction this).
  - intros [= <-]. split; reflexivity.
  - destruct (testnet this) as [t|]; [|discriminate].
    intros [= <-]. split; reflexivity.
Qed.

(** X5: whichever network the session is configured for (mainnet in
    production, else ropsten, kovan or rinkeby), [getAccount] goes on to
    request the accounts when the reported chain id is that network's
    entry of the [networks] table, and rejects with the wrong-network
    message naming that network for every other chain id. *)
Theorem getAccount_expects_configured_network env this w c n :
  reports env this w c ->
  expected_network this = Some n ->
  (c = JString (networks n) -> proceeds_to_accounts env this w c) /\
  (c <> JString (networks n) -> rejects_wrong_network env this w (network_name n)).
Proof.
  intros Hrep Hn. destruct (usedChain_expected this n Hn) as [Hu Hname]. split.
  - intros Hc. apply getAccount_strict_match; [exact Hrep|].
    rewrite Hu. apply strict_eq_string. exact Hc.
  - intros Hc. rewrite <- Hname. apply (getAccount_strict_mismatch env this w c Hrep).
    rewrite Hu. apply strict_eq_string_false. exact Hc.
Qed.

(** A kovan session facing a wallet on ropsten. *)
Lemma getAccount_expects_configured_network_witness :
  rejects_wrong_network ropsten_env (cached_service "0x3" (Some kovan)) page "kovan".
Proof.
  assert (Hrep : reports ropsten_env (cached_service "0x3" (Some kovan)) page
                   (JString "0x3")).
  { eexists. split; [reflexivity|]. left. split; reflexivity. }
  apply (getAccount_expects_configured_network ropsten_env
           (cached_service "0x3" (Some kovan)) page (JString "0x3") (test kovan)
           Hrep eq_refl).
  discriminate.
Defined.

(** X6: a session created without [isProduction] and without [testnet]
    expects the chain id [undefined]: every chain id a wallet actually
    reports is rejected with "Please choose undefined network", and only
    an [eth_chainId] answer of [undefined] lets it request the
    accounts. *)
Theorem getAccount_without_testnet env this w c :
  reports env this w c ->
  isProduction this = false ->
  testnet this = None ->
  (c <> JUndefined -> rejects_wrong_network env this w "undefined") /\
  (c = JUndefined -> proceeds_to_accounts env this w c).
Proof.
  intros Hrep Hp Ht.
  assert (Hu : usedChain this = JUndefined) by (unfold usedChain; rewrite Hp, Ht; reflexivity).
  assert (Hn : usedNetwork this = "undefined")
    by (unfold usedNetwork; rewrite Hp, Ht; reflexivity).
  split.
  - intros Hc. rewrite <- Hn. apply (getAccount_strict_mismatch env this w c Hrep).
    rewrite Hu. destruct c; try reflexivity. contradiction.
  - intros ->. apply (getAccount_strict_match env this w JUndefined Hrep).
    rewrite Hu. reflexivity.
Qed.

(** A wallet on ropsten meets a session that names no testnet. *)
Lemma getAccount_without_testnet_witness :
  rejects_wrong_network ropsten_env (cached_service "0x3" None) page "undefined".
Proof.
  assert (Hrep : reports ropsten_env (cached_service "0x3" None) page (JString "0x3")).
  { eexists. split; [reflexivity|]. left. split; reflexivity. }
  apply (getAccount_without_testnet ropsten_env (cached_service "0x3" None) page
           (JString "0x3") Hrep eq_refl eq_refl).
  discriminate.
Defined.

(** X7: the first revision of [getAccount] settles exactly as the final
    one and makes the same requests; the only difference is that the
    final one records the granted account in [walletAddress], which the
    first one never changes. *)
Theorem getAccount_revisions_agree env this w :
  fst (Earlier.getAccount env this w) = fst (getAccount env this w) /\
  trace (snd (Earlier.getAccount env this w)) = trace (snd (getAccount env this w)) /\
  localStorage (snd (Earlier.getAccount env this w))
  = localStorage (snd (getAccount env this w)) /\
  walletAddress (snd (Earlier.getAccount env this w)) = walletAddress w.
Proof.
  assert (Hacc : forall chain w0,
    fst (Earlier.request_accounts env this chain w0)
    = fst (request_accounts env this chain w0) /\
    trace (snd (Earlier.request_accounts env this chain w0))
    = trace (snd (request_accounts env this chain w0)) /\
    localStorage (snd (Earlier.request_accounts env this chain w0))
    = localStorage (snd (request_accounts env this chain w0)) /\
    walletAddress (snd (Earlier.request_accounts env this chain w0)) = walletAddress w0).
  { intros chain w0. unfold Earlier.request_accounts, request_accounts, bind, request.
    destruct (wallet this); [|repeat split].
    destruct (wallet_request env (trace w0) eth_requestAccounts) as [account|e];
      [destruct (index0 account)|]; repeat split. }
  unfold Earlier.getAccount, getAccount, bind, wallet_chainId, new_Promise.
  destruct (wallet this) as [wl|] eqn:Hw; [|repeat split].
  simpl.
  destruct (negb (truthy (chainId wl)) || strict_eq (chainId wl) JNull).
  - unfold request. rewrite Hw.
    destruct (wallet_request env (trace w) eth_chainId) as [resChain|e]; [|repeat split].
    destruct (strict_eq resChain (usedChain this)); [|repeat split].
    specialize (Hacc resChain (log (Request eth_chainId) w)).
    destruct (Earlier.request_accounts env this resChain (log (Request eth_chainId) w))
      as [[s1|e1] w1],
      (request_accounts env this resChain (log (Request eth_chainId) w)) as [[s2|e2] w2];
      simpl in *; destruct Hacc as (H1 & H2 & H3 & H4); try discriminate H1;
      injection H1 as <-; repeat split; assumption.
  - destruct (strict_eq (chainId wl) (usedChain this)); [|repeat split].
    specialize (Hacc (chainId wl) w).
    destruct (Earlier.request_accounts env this (chainId wl) w) as [[s1|e1] w1],
      (request_accounts env this (chainId wl) w) as [[s2|e2] w2];
      simpl in *; destruct Hacc as (H1 & H2 & H3 & H4); try discriminate H1;
      injection H1 as <-; repeat split; assumption.
Qed.

(** *** Further properties of the builders *)

Lemma getAccount_fulfilled_address env this w info w' :
  getAccount env this w = (Normal (Fulfilled info), w') ->
  walletAddress w' = address info.
Proof.
  destruct (wallet this) as [wl|] eqn:Hw.
  2: { unfold getAccount, wallet_chainId, bind. rewrite Hw. discriminate. }
  assert (Hacc : forall chain w0,
    request_accounts env this chain w0 = (Normal (Fulfilled info), w') ->
    walletAddress w' = address info).
  { intros chain w0. rewrite (request_accounts_world env this wl Hw).
    destruct (wallet_request env (trace w0) eth_requestAccounts) as [account|e];
      [destruct (index0 account)|]; intros [= <- <-]; reflexivity. }
  destruct (truthy (chainId wl)) eqn:Ht.
  - rewrite (getAccount_cached env this wl Hw w Ht).
    destruct (strict_eq (chainId wl) (usedChain this)); [apply Hacc | discriminate].
  - rewrite (getAccount_probing env this wl Hw w Ht).
    destruct (wallet_request env (trace w) eth_chainId) as [resChain|e]; [|discriminate].
    destruct (strict_eq resChain (usedChain this)); [apply Hacc | discriminate].
Qed.

(** Whatever a builder submits is sent from [walletAddress || this.walletAddress]. *)
Lemma approveToken_sender env this token abi d wa w evs tx :
  issued w (snd (approveToken env this token abi d wa w)) evs ->
  In (Request (eth_sendTransaction tx)) evs ->
  from tx = js_or wa (walletAddress w).
Proof.
  unfold issued. intros Hevs Hin.
  destruct (approveToken_world env this token abi d wa w) as [H|(payload & H)];
    rewrite H in Hevs; simpl in Hevs; try rewrite <- app_assoc in Hevs;
    apply app_inv_head in Hevs; subst evs.
  - destruct Hin as [Hin|[]]; discriminate Hin.
  - destruct Hin as [Hin|[Hin|[]]]; [discriminate Hin|].
    injection Hin as <-. reflexivity.
Qed.

Lemma createTransaction_sender env this abi method data token wa value w evs tx :
  issued w (snd (createTransaction env this abi method data token wa value w)) evs ->
  In (Request (eth_sendTransaction tx)) evs ->
  from tx = js_or wa (walletAddress w).
Proof.
  unfold issued. intros Hevs Hin.
  destruct (createTransaction_world env this abi method data token wa value w)
    as [H|(payload & H)]; rewrite H in Hevs; simpl in Hevs.
  - rewrite <- (app_nil_r (trace w)) in Hevs at 1.
    apply app_inv_head in Hevs. subst evs. destruct Hin.
  - apply app_inv_head in Hevs. subst evs.
    destruct Hin as [Hin|[]]. injection Hin as <-. reflexivity.
Qed.

(** X8: once [getAccount] has resolved, every transaction request that
    [approveToken] or [createTransaction] submits without a wallet
    address argument (left out, or the empty string) is sent from the
    address [getAccount] resolved with. *)
Theorem sender_after_connecting env this w info w1 wa :
  getAccount env this w = (Normal (Fulfilled info), w1) ->
  truthy wa = false ->
  forall token abi d method data value,
    (forall evs tx,
       issued w1 (snd (approveToken env this token abi d wa w1)) evs ->
       In (Request (eth_sendTransaction tx)) evs ->
       from tx = address info) /\
    (forall evs tx,
       issued w1 (snd (createTransaction env this abi method data token wa value w1)) evs ->
       In (Request (eth_sendTransaction tx)) evs ->
       from tx = address info).
Proof.
  intros Hg Hwa token abi d method data value.
  pose proof (getAccount_fulfilled_address env this w info w1 Hg) as Ha.
  split; intros evs tx Hevs Hin.
  - rewrite (approveToken_sender _ _ _ _ _ _ _ _ _ Hevs Hin).
    unfold js_or. rewrite Hwa. exact Ha.
  - rewrite (createTransaction_sender _ _ _ _ _ _ _ _ _ _ _ Hevs Hin).
    unfold js_or. rewrite Hwa. exact Ha.
Qed.

(** Connect on ropsten, then approve: the approval is sent from the
    granted account. *)
Lemma sender_after_connecting_witness :
  from (approval_request "0xtoken" "0xdata" JUndefined
          (snd (getAccount ropsten_env ropsten_service page)))
  = JString "0xabc".
Proof.
  destruct (sender_after_connecting ropsten_env ropsten_service page
              {| address := JString "0xabc"; network := JString "0x3" |}
              (snd (getAccount ropsten_env ropsten_service page)) JUndefined
              eq_refl eq_refl "0xtoken" erc20 18%nat "transfer" [] JUndefined)
    as (Ha & _).
  apply (Ha [Call (totalSupply_call (getContract "0xtoken" erc20));
             Request (eth_sendTransaction
                        (approval_request "0xtoken" "0xdata" JUndefined
                           (snd (getAccount ropsten_env ropsten_service page))))]).
  - reflexivity.
  - right. left. reflexivity.
Defined.

(** X9: a truthy wallet address argument is the sender of whatever
    [approveToken] or [createTransaction] submits, whatever address the
    session holds. *)
Theorem explicit_sender_wins env this w wa :
  truthy wa = true ->
  forall token abi d method data value,
    (forall evs tx,
       issued w (snd (approveToken env this token abi d wa w)) evs ->
       In (Request (eth_sendTransaction tx)) evs ->
       from tx = wa) /\
    (forall evs tx,
       issued w (snd (createTransaction env this abi method data token wa value w)) evs ->
       In (Request (eth_sendTransaction tx)) evs ->
       from tx = wa).
Proof.
  intros Hwa token abi d method data value.
  split; intros evs tx Hevs Hin.
  - rewrite (approveToken_sender _ _ _ _ _ _ _ _ _ Hevs Hin).
    unfold js_or. rewrite Hwa. reflexivity.
  - rewrite (createTransaction_sender _ _ _ _ _ _ _ _ _ _ _ Hevs Hin).
    unfold js_or. rewrite Hwa. reflexivity.
Qed.

(** A transfer sent from an address given by the caller, before any
    connection. *)
Lemma explicit_sender_wins_witness :
  from (created_request "0xtoken" "0xdata" (JString "0xdef") JUndefined page)
  = JString "0xdef".
Proof.
  destruct (explicit_sender_wins ropsten_env ropsten_service page (JString "0xdef")
              eq_refl "0xtoken" erc20 18%nat "transfer" [] JUndefined) as (_ & Hc).
  apply (Hc [Request (eth_sendTransaction
                        (created_request "0xtoken" "0xdata" (JString "0xdef")
                           JUndefined page))]).
  - reflexivity.
  - left. reflexivity.
Defined.

(** X10: when the method resolves and encodes, [createTransaction]
    submits one request (to the token address, carrying the encoded
    call, with the empty string as [value] unless a truthy value was
    given) and returns the wallet's own promise: it resolves with what
    the wallet resolves with and rejects with the wallet's reason,
    unchanged. *)
Theorem createTransaction_forwards env this wl abi method data token wa value w m payload :
  wallet this = Some wl ->
  getMethodInterface abi method = Some m ->
  codec env m data = inr payload ->
  exists tx,
    createTransaction env this abi method data token wa value w
    = (Normal (wallet_request env (trace w) (eth_sendTransaction tx)),
       log (Request (eth_sendTransaction tx)) w) /\
    to tx = token /\ Service.data tx = payload /\
    (truthy value = true -> Service.value tx = Some value) /\
    (truthy value = false -> Service.value tx = Some (JString "")).
Proof.
  intros Hw Hm Hc. exists (created_request token payload wa value w).
  rewrite (createTransaction_encoded env this _ _ _ _ _ _ _ _ _ Hm Hc).
  unfold sendTransaction. rewrite (request_eval env this wl Hw).
  repeat split; simpl; intros ->; reflexivity.
Qed.

(** The refusing wallet's reason comes back as it is. *)
Lemma createTransaction_forwards_witness :
  fst (createTransaction refusing_env ropsten_service erc20 "transfer" [] "0xtoken"
         JUndefined JUndefined page)
  = Normal (Rejected (JError "Error" "User rejected the request.")).
Proof.
  destruct (createTransaction_forwards refusing_env ropsten_service probing_wallet erc20
              "transfer" [] "0xtoken" JUndefined JUndefined page transfer_entry "0xdata"
              eq_refl eq_refl eq_refl) as (tx & H & _).
  rewrite H. reflexivity.
Defined.

Lemma approval_amount_exact n d :
  (d <= 20)%nat -> representable n d ->
  calcTransactionAmount (unscale (RUint n) d) d = uint_string n.
Proof.
  intros Hd Hrep. rewrite (unscale_uint n d Hd).
  apply (calcTransactionAmount_human n d _ Hd Hrep).
Qed.

Lemma approval_amount_NaN v d :
  readval_truthy v = false -> calcTransactionAmount (unscale v d) d = "NaN".
Proof.
  intros Hv. unfold unscale, calcTransactionAmount.
  assert (Hb : BN_of_readval v = BNnan) by (destruct v; [discriminate|..]; reflexivity).
  rewrite Hb. reflexivity.
Qed.

(** X11: with at most 20 decimals and a representable supply [n],
    [approveToken] encodes [approve(tokenAddress, n)]: the spender is
    the token contract itself and the amount is the numeral of the
    whole supply in base units; it then submits that call to the token
    address and returns the wallet's promise. *)
Theorem approveToken_approves_whole_supply env this wl token abi d wa w n m payload :
  wallet this = Some wl ->
  (d <= 20)%nat ->
  representable n d ->
  contract_call env (trace w) (totalSupply_call (getContract token abi))
  = Fulfilled (RUint n) ->
  getMethodInterface abi "approve" = Some m ->
  codec env m [JString token; JString (uint_string n)] = inr payload ->
  approveToken env this token abi d wa w
  = (Normal (wallet_request env (trace w ++ [Call (totalSupply_call (getContract token abi))])
               (eth_sendTransaction (approval_request token payload wa w))),
     log (Request (eth_sendTransaction (approval_request token payload wa w)))
       (log (Call (totalSupply_call (getContract token abi))) w)).
Proof.
  intros Hw Hd Hrep Hr Hm Hc.
  apply (approveToken_encoded env this token abi d wa w (RUint n) m payload wl Hw Hr Hm).
  rewrite (approval_amount_exact n d Hd Hrep). exact Hc.
Qed.

(** A codec that accepts only the approval of the whole supply of the
    ropsten scenario's token. *)
Lemma approveToken_approves_whole_supply_witness :
  fst (approveToken whole_supply_env ropsten_service "0xtoken" erc20 18 JUndefined page)
  = Normal (Fulfilled (JString "0xhash")).
Proof.
  rewrite (approveToken_approves_whole_supply whole_supply_env ropsten_service probing_wallet
             "0xtoken" erc20 18 JUndefined page 1000000000000000000000
             approve_entry "0xdata" eq_refl).
  - reflexivity.
  - lia.
  - vm_compute. reflexivity.
  - reflexivity.
  - reflexivity.
  - reflexivity.
Defined.

(** X12: when the total supply comes back as a falsy value
    ([undefined], [null], [false] or the empty string), [approveToken]
    does not stop: it encodes [approve(tokenAddress, "NaN")] and, if the
    codec accepts that, submits it. *)
Theorem approveToken_non_numeric_supply env this wl token abi d wa w v m payload :
  wallet this = Some wl ->
  contract_call env (trace w) (totalSupply_call (getContract token abi)) = Fulfilled v ->
  readval_truthy v = false ->
  getMethodInterface abi "approve" = Some m ->
  codec env m [JString token; JString "NaN"] = inr payload ->
  issued w (snd (approveToken env this token abi d wa w))
    [Call (totalSupply_call (getContract token abi));
     Request (eth_sendTransaction (approval_request token payload wa w))].
Proof.
  intros Hw Hr Hv Hm Hc.
  rewrite (approveToken_encoded env this token abi d wa w v m payload wl Hw Hr Hm).
  - unfold issued. simpl. rewrite <- app_assoc. reflexivity.
  - rewrite (approval_amount_NaN v d Hv). exact Hc.
Qed.

(** The token of the ropsten scenario answers [null]. *)
Lemma approveToken_non_numeric_supply_witness :
  issued page
    (snd (approveToken null_supply_env ropsten_service "0xtoken" erc20 18 JUndefined page))
    [Call (totalSupply_call (getContract "0xtoken" erc20));
     Request (eth_sendTransaction (approval_request "0xtoken" "0xdata" JUndefined page))].
Proof.
  apply (approveToken_non_numeric_supply null_supply_env ropsten_service probing_wallet
           "0xtoken" erc20
           18 JUndefined page RNull approve_entry "0xdata"); reflexivity.
Defined.

(** X13: [approveToken] never throws, and its promise rejects only when
    the wallet rejects the submission, with the wallet's reason; a
    failed read of the total supply comes back as a fulfilled value (the
    read's error), with nothing submitted. *)
Theorem approveToken_rejects_only_from_wallet env this token abi d wa w :
  (exists s, fst (approveToken env this token abi d wa w) = Normal s) /\
  (forall e,
     fst (approveToken env this token abi d wa w) = Normal (Rejected e) ->
     exists payload,
       wallet_request env (trace w ++ [Call (totalSupply_call (getContract token abi))])
         (eth_sendTransaction (approval_request token payload wa w)) = Rejected e /\
       snd (approveToken env this token abi d wa w)
       = log (Request (eth_sendTransaction (approval_request token payload wa w)))
           (log (Call (totalSupply_call (getContract token abi))) w)) /\
  (forall e,
     contract_call env (trace w) (totalSupply_call (getContract token abi)) = Rejected e ->
     approveToken env this token abi d wa w
     = (Normal (Fulfilled e), log (Call (totalSupply_call (getContract token abi))) w)).
Proof.
  assert (Hcases :
    (exists v, approveToken env this token abi d wa w
               = (Normal (Fulfilled v),
                  log (Call (totalSupply_call (getContract token abi))) w))
    \/ (exists payload,
          approveToken env this token abi d wa w
          = (Normal (wallet_request env
                       (trace w ++ [Call (totalSupply_call (getContract token abi))])
                       (eth_sendTransaction (approval_request token payload wa w))),
             log (Request (eth_sendTransaction (approval_request token payload wa w)))
               (log (Call (totalSupply_call (getContract token abi))) w)))).
  { destruct (contract_call env (trace w) (totalSupply_call (getContract token abi)))
      as [raw|e] eqn:Hr.
    2: { left. exists e. apply approveToken_read_fails. exact Hr. }
    destruct (encodeFunctionCall_cases env (getMethodInterface abi "approve")
                [JString token; JString (calcTransactionAmount (unscale raw d) d)] w)
      as [(e & He & _)|(m & payload & Hm & Hc & _)].
    { left. exists e. apply (approveToken_encoding_fails env this _ _ _ _ _ _ _ Hr He). }
    destruct (wallet this) as [wl|] eqn:Hw.
    - right. exists payload.
      apply (approveToken_encoded env this _ _ _ _ _ _ _ _ _ Hw Hr Hm Hc).
    - left. eexists. unfold approveToken, async, try_catch, bind.
      rewrite totalSupply_eval, Hr. simpl.
      rewrite Hm, (encodeFunctionCall_ok _ _ _ _ _ Hc). simpl.
      unfold sendTransaction, request. rewrite Hw. reflexivity. }
  split; [|split].
  - destruct Hcases as [(v & ->)|(payload & ->)]; eexists; reflexivity.
  - intros e He. destruct Hcases as [(v & H)|(payload & H)]; rewrite H in He |- *.
    + discriminate He.
    + exists payload. injection He as He. split; [exact He | reflexivity].
  - intros e Hr. apply approveToken_read_fails. exact Hr.
Qed.

(** X14: none of [totalSupply], [checkTokenAllowance], [approveToken]
    and [createTransaction] changes [walletAddress] or [localStorage]. *)
Theorem builders_keep_page_state env this token contract abi d method data wa value w :
  same_page w (snd (totalSupply env token abi d w)) /\
  same_page w (snd (checkTokenAllowance env token contract abi d wa w)) /\
  same_page w (snd (approveToken env this token abi d wa w)) /\
  same_page w (snd (createTransaction env this abi method data token wa value w)).
Proof.
  unfold same_page. repeat split.
  - rewrite totalSupply_eval. reflexivity.
  - rewrite totalSupply_eval. reflexivity.
  - apply checkTokenAllowance_keeps_address.
  - rewrite checkTokenAllowance_eval.
    destruct (contract_call env (trace w) _) as [result|e]; [|reflexivity].
    match goal with
    | |- context [contract_call env ?t (totalSupply_call (getContract token abi))] =>
        destruct (contract_call env t (totalSupply_call (getContract token abi)))
    end; reflexivity.
  - destruct (approveToken_world env this token abi d wa w) as [->|(payload & ->)];
      reflexivity.
  - destruct (approveToken_world env this token abi d wa w) as [->|(payload & ->)];
      reflexivity.
  - destruct (createTransaction_world env this abi method data token wa value w)
      as [->|(payload & ->)]; reflexivity.
  - destruct (createTransaction_world env this abi method data token wa value w)
      as [->|(payload & ->)]; reflexivity.
Qed.

(** *** Further properties of the allowance check *)

Lemma BN_leb_fin_trans x a b :
  (a <= b)%Q -> BN_leb x (BNfin a) = true -> BN_leb x (BNfin b) = true.
Proof.
  intros Hab. destruct x as [q|[|]|]; simpl; try (intros H; exact H).
  rewrite !Qle_bool_iff. intros H. apply (Qle_trans _ a); assumption.
Qed.

(** X15: the decision of [checkTokenAllowance] is monotone in the
    allowance: against the same total supply, whenever an allowance
    passes, every larger allowance passes too. *)
Theorem allowance_covers_monotone a a' supply :
  (a <= a')%N ->
  allowance_covers (RUint a) supply = true ->
  allowance_covers (RUint a') supply = true.
Proof.
  intros Hle. rewrite !allowance_covers_uint.
  intros H. apply andb_prop in H as [H0 H1].
  apply negb_true_iff, N.eqb_neq in H0.
  apply andb_true_intro. split.
  - apply negb_true_iff, N.eqb_neq. lia.
  - apply (BN_leb_fin_trans _ (inject_Z (Z.of_N a))); [|exact H1].
    rewrite <- Zle_Qle. lia.
Qed.

(** Five base units pass against a supply of five, so do six. *)
Lemma allowance_covers_monotone_witness :
  allowance_covers (RUint 6) (unscale (RUint 5) 0) = true.
Proof.
  apply (allowance_covers_monotone 5 6); [lia | reflexivity].
Defined.

Lemma human_le n d a :
  (human n d <= inject_Z (Z.of_N a))%Q <-> Z.of_N n <= Z.of_N a * 10 ^ Z.of_nat d.
Proof.
  unfold human. rewrite Qred_correct. unfold Qle, inject_Z. cbn [Qnum Qden].
  rewrite Z2Pos.id by apply pow10_pos. rewrite Z.mul_1_r. reflexivity.
Qed.

(** X16: the allowance is compared in base units with the supply in
    whole tokens: with at most 20 decimals and a representable supply
    of [n] base units, [checkTokenAllowance] answers [true] exactly when
    the allowance [a] is not zero and [a * 10^decimals] is at least
    [n]. *)
Theorem checkTokenAllowance_mixes_units env token contract abi d wa w a n :
  (d <= 20)%nat ->
  representable n d ->
  allowance_read env token contract wa w = Fulfilled (RUint a) ->
  supply_read env token contract abi wa w = Fulfilled (RUint n) ->
  (fst (checkTokenAllowance env token contract abi d wa w) = Normal (Fulfilled true)
   <-> a <> 0%N /\ Z.of_N n <= Z.of_N a * 10 ^ Z.of_nat d).
Proof.
  intros Hd Hrep Ha Hs.
  rewrite (checkTokenAllowance_fulfilled _ _ _ _ _ _ _ _ _ Ha Hs).
  rewrite allowance_covers_uint, (unscale_uint n d Hd), Hrep. simpl BN_leb.
  rewrite <- human_le. split.
  - intros [= H]. apply andb_prop in H as [H1 H2]. split.
    + intros ->. discriminate H1.
    + apply Qle_bool_iff. exact H2.
  - intros [H1 H2]. apply N.eqb_neq in H1. apply Qle_bool_iff in H2.
    rewrite H1, H2. reflexivity.
Qed.

(** On the ropsten scenario an allowance of 1000 base units passes
    against a supply of 1000 tokens at 18 decimals. *)
Lemma checkTokenAllowance_mixes_units_witness :
  fst (checkTokenAllowance ropsten_env "0xtoken" token erc20 18 JUndefined page)
  = Normal (Fulfilled true).
Proof.
  apply (checkTokenAllowance_mixes_units ropsten_env "0xtoken" token erc20 18 JUndefined
           page 1000 1000000000000000000000).
  - lia.
  - vm_compute. reflexivity.
  - reflexivity.
  - reflexivity.
  - split; [discriminate | vm_compute; discriminate].
Defined.

(** X17: [checkTokenAllowance] first reads the allowance of
    [walletAddress || this.walletAddress] for the token address on the
    binding it was given; if that read fails it reads nothing else,
    and otherwise (an allowance of ["0"] included) it reads the total
    supply on a fresh binding of the token address. *)
Theorem checkTokenAllowance_reads env token contract abi d wa w :
  issued w (snd (checkTokenAllowance env token contract abi d wa w))
    match allowance_read env token contract wa w with
    | Rejected _ =>
        [Call (allowance_call contract (js_or wa (walletAddress w)) token)]
    | Fulfilled _ =>
        [Call (allowance_call contract (js_or wa (walletAddress w)) token);
         Call (totalSupply_call (getContract token abi))]
    end.
Proof.
  unfold issued, allowance_read. rewrite checkTokenAllowance_eval.
  destruct (contract_call env (trace w) _) as [result|e]; [|reflexivity].
  match goal with
  | |- context [contract_call env ?t (totalSupply_call (getContract token abi))] =>
      destruct (contract_call env t (totalSupply_call (getContract token abi)))
  end; simpl; rewrite <- app_assoc; reflexivity.
Qed.

(** X18: when the total supply comes back as a falsy value,
    [checkTokenAllowance] answers [false] whatever the allowance: the
    supply reads as NaN and no difference with NaN is positive. *)
Theorem checkTokenAllowance_non_numeric_supply env token contract abi d wa w v :
  supply_read env token contract abi wa w = Fulfilled v ->
  readval_truthy v = false ->
  fst (checkTokenAllowance env token contract abi d wa w) = Normal (Fulfilled false).
Proof.
  unfold supply_read. intros Hs Hv. rewrite checkTokenAllowance_eval.
  destruct (contract_call env (trace w) _) as [result|e]; [|reflexivity].
  simpl. simpl in Hs. rewrite Hs.
  assert (Hn : unscale v d = NaN).
  { unfold unscale.
    assert (Hb : BN_of_readval v = BNnan) by (destruct v; [discriminate|..]; reflexivity).
    rewrite Hb. reflexivity. }
  rewrite Hn. unfold allowance_covers.
  destruct (readval_truthy (if readval_is result "0" then RNull else result));
    [|reflexivity].
  destruct (BN_of_readval (if readval_is result "0" then RNull else result));
    reflexivity.
Qed.

(** An unlimited allowance against a token that answers [null]. *)
Lemma checkTokenAllowance_non_numeric_supply_witness :
  fst (checkTokenAllowance null_supply_env "0xtoken" token erc20 18 JUndefined page)
  = Normal (Fulfilled false).
Proof.
  apply (checkTokenAllowance_non_numeric_supply null_supply_env "0xtoken" token erc20 18
           JUndefined page RNull); reflexivity.
Defined.

(** *** Further properties of the change handlers *)

Lemma on_chainChanged_cases newChain w :
  (js_String (persisted_chainId w) = js_String newChain /\
   on_chainChanged newChain w = (Normal tt, w))
  \/ (js_String (persisted_chainId w) <> js_String newChain /\
      on_chainChanged newChain w =
      (Normal tt,
       {| walletAddress := walletAddress w;
          localStorage := <["chainId" := js_String newChain]> (localStorage w);
          trace := trace w ++ [SetItem "chainId" (js_String newChain); Reload] |})).
Proof.
  destruct (String.eqb_spec (js_String (persisted_chainId w)) (js_String newChain))
    as [He|Hne].
  - left. split; [exact He | apply on_chainChanged_same; exact He].
  - right. split; [exact Hne | apply on_chainChanged_different; exact Hne].
Qed.

(** X19: after the [chainChanged] handler has run on a value, the
    persisted chain id reads as that value, whether or not it had to be
    written; so running the handler again on the same value never
    writes or reloads, whatever the storage held at first. *)
Theorem chainChanged_settles_on_value newChain w :
  js_String (persisted_chainId (snd (on_chainChanged newChain w))) = js_String newChain /\
  on_chainChanged newChain (snd (on_chainChanged newChain w))
  = (Normal tt, snd (on_chainChanged newChain w)).
Proof.
  assert (H : js_String (persisted_chainId (snd (on_chainChanged newChain w)))
              = js_String newChain).
  { destruct (on_chainChanged_cases newChain w) as [[He ->]|[Hne ->]]; [exact He|].
    unfold persisted_chainId. simpl. rewrite lookup_insert_eq. reflexivity. }
  split; [exact H | apply on_chainChanged_same; exact H].
Qed.

(** X20: the handlers stay within their key: [chainChanged] leaves
    [walletAddress] and every [localStorage] key other than ["chainId"]
    as they were, and [accountsChanged] changes no key at all and
    reloads exactly once whatever accounts it is given. *)
Theorem handlers_frame newChain newAccounts w :
  walletAddress (snd (on_chainChanged newChain w)) = walletAddress w /\
  (forall key, key <> "chainId" ->
     localStorage (snd (on_chainChanged newChain w)) !! key = localStorage w !! key) /\
  on_accountsChanged newAccounts w = (Normal tt, log Reload w) /\
  same_page w (snd (on_accountsChanged newAccounts w)).
Proof.
  split; [|split; [|split]].
  - destruct (on_chainChanged_cases newChain w) as [[_ ->]|[_ ->]]; reflexivity.
  - intros key Hk.
    destruct (on_chainChanged_cases newChain w) as [[_ ->]|[_ ->]]; [reflexivity|].
    simpl. apply lookup_insert_ne. congruence.
  - reflexivity.
  - split; reflexivity.
Qed.

(** X21: with nothing persisted, the missing id is compared as the
    string ["null"]: a first event carrying any other string is
    persisted and reloads the page, while one carrying [null] or the
    string ["null"] is ignored. *)
Theorem chainChanged_first_event w c :
  localStorage w !! "chainId" = None ->
  (c <> "null" ->
   localStorage (snd (on_chainChanged (JString c) w)) !! "chainId" = Some c /\
   issued w (snd (on_chainChanged (JString c) w)) [SetItem "chainId" c; Reload]) /\
  on_chainChanged (JString "null") w = (Normal tt, w) /\
  on_chainChanged JNull w = (Normal tt, w).
Proof.
  intros Hnone.
  assert (Hp : persisted_chainId w = JNull) by (unfold persisted_chainId; rewrite Hnone; reflexivity).
  split; [|split].
  - intros Hc.
    rewrite (on_chainChanged_different (JString c) w)
      by (rewrite Hp; simpl; congruence).
    simpl. split; [apply lookup_insert_eq | reflexivity].
  - apply on_chainChanged_same. rewrite Hp. reflexivity.
  - apply on_chainChanged_same. rewrite Hp. reflexivity.
Qed.

(** A page with empty storage sees the wallet on ropsten. *)
Lemma chainChanged_first_event_witness :
  issued page (snd (on_chainChanged (JString "0x3") page)) [SetItem "chainId" "0x3"; Reload].
Proof.
  destruct (chainChanged_first_event page "0x3" (lookup_empty "chainId")) as (H & _).
  apply H. discriminate.
Defined.

(** *** Further properties of method resolution *)

(** X22: resolution over two ABI lists put end to end looks in the
    first list and only then in the second; whatever it returns is an
    entry of the list that carries the name asked for. *)
Theorem getMethodInterface_app abi more q :
  getMethodInterface (abi ++ more) q =
  match getMethodInterface abi q with
  | Some m => Some m
  | None => getMethodInterface more q
  end /\
  (forall m, getMethodInterface abi q = Some m -> In m abi /\ name m = Some q).
Proof.
  split.
  - induction abi as [|x abi IH]; [reflexivity|].
    change ((x :: abi) ++ more)%list with (x :: (abi ++ more))%list.
    rewrite !getMethodInterface_cons. destruct (named_dec q x); [reflexivity | exact IH].
  - intros m H. apply getMethodInterface_Some in H.
    destruct H as (before & after & -> & Hm & _). split; [|exact Hm].
    apply in_or_app. right. left. reflexivity.
Qed.

(** *** The guard that never fires *)

Lemma not_injected_message_distinct this e :
  connect_error this e ->
  e <> JErrorMsg (usedNetwork this ++ " wallet is not injected").
Proof.
  unfold connect_error, WrongNetwork, not_authorized, usedNetwork.
  destruct (isProduction this); [|destruct (testnet this) as [[| |]|]];
    intros [->|[->| ->]]; discriminate.
Qed.

(** X23: [getAccount] never rejects with the "wallet is not injected"
    message, on any service, in any world: without a wallet it throws
    before the guard is reached, and with one the guard does not
    fire. *)
Theorem getAccount_never_reports_missing_wallet env this w :
  fst (getAccount env this w)
  <> Normal (Rejected (JErrorMsg (usedNetwork this ++ " wallet is not injected"))).
Proof.
  destruct (wallet this) as [wl|] eqn:Hw.
  - destruct (getAccount_settles_aux env this wl w Hw) as (s & Hs & Herr).
    rewrite Hs. intros [= ->].
    apply (not_injected_message_distinct this _ (Herr _ eq_refl)). reflexivity.
  - unfold getAccount, wallet_chainId, bind. rewrite Hw. discriminate.
Qed.

(** *** The constructor's default and the number [totalSupply] returns *)

(** X24: a session constructed without [isProduction] is a testnet
    session: whatever testnet it names, a wallet reporting the mainnet
    chain id ["0x1"] is rejected with the wrong-network message for that
    testnet. *)
Theorem default_session_rejects_mainnet env ethereum t this w :
  constructor ethereum (Some t) None = Normal this ->
  reports env this w (JString "0x1") ->
  rejects_wrong_network env this w (network_name (test t)).
Proof.
  unfold constructor. destruct ethereum as [wl|]; [|discriminate].
  intros [= <-] Hrep.
  assert (Hn : usedNetwork {| wallet := Some wl; testnet := Some t;
                              isProduction := default false None |}
               = network_name (test t)) by reflexivity.
  rewrite <- Hn. apply (getAccount_strict_mismatch env _ w (JString "0x1") Hrep).
  destruct t; reflexivity.
Qed.

(** A rinkeby session, built with the defaults, meets a mainnet wallet. *)
Lemma default_session_rejects_mainnet_witness :
  rejects_wrong_network ropsten_env (cached_service "0x1" (Some rinkeby)) page "rinkeby".
Proof.
  apply (default_session_rejects_mainnet ropsten_env (Some {| chainId := JString "0x1" |})
           rinkeby (cached_service "0x1" (Some rinkeby)) page eq_refl).
  eexists. split; [reflexivity|]. left. split; reflexivity.
Defined.

(** X25: with at most 20 decimals, [totalSupply] resolves with the
    binary64 number nearest to the supply divided by [10^decimals] (one
    rounding, of the exact quotient); it rejects exactly when the read
    does, with the read's reason, and a falsy supply gives NaN. *)
Theorem totalSupply_resolves_nearest_number env token abi d w :
  (forall n, (d <= 20)%nat ->
     contract_call env (trace w) (totalSupply_call (getContract token abi))
     = Fulfilled (RUint n) ->
     fst (totalSupply env token abi d w) = Normal (Fulfilled (ToNumber (human n d)))) /\
  (forall v, readval_truthy v = false ->
     contract_call env (trace w) (totalSupply_call (getContract token abi)) = Fulfilled v ->
     fst (totalSupply env token abi d w) = Normal (Fulfilled NaN)) /\
  (forall e,
     contract_call env (trace w) (totalSupply_call (getContract token abi)) = Rejected e
     <-> fst (totalSupply env token abi d w) = Normal (Rejected e)).
Proof.
  rewrite totalSupply_eval. simpl. split; [|split].
  - intros n Hd ->. rewrite (unscale_uint n d Hd). reflexivity.
  - intros v Hv ->. do 2 f_equal. unfold unscale.
    assert (Hb : BN_of_readval v = BNnan) by (destruct v; [discriminate|..]; reflexivity).
    rewrite Hb. reflexivity.
  - intros e. destruct (contract_call env (trace w) _) as [raw|e0].
    + split; discriminate.
    + split; intros [= ->]; reflexivity.
Qed.
